(** * retico-multilingual-tts: the incremental synthesis-and-playback pipeline

    A shallow embedding of [retico_multilingual_tts/multilingual_tts.py]:
    the [CoquiTTS] wrapper with its on-disk waveform cache, and
    [MultilingualTTSModule] with its text accumulation, its synthesis
    threads and its frame scheduler thread.

    Conventions.
    - A Python [str] is held as the string of its UTF-8 bytes, so
      [text.encode("utf8")] is the identity on the bytes; the characters the
      code looks for (".", "!", "?", " ") are ASCII and occur in the UTF-8
      bytes exactly where they occur in the text.
    - A Python [int] is a [Z]; a Python [float] is a binary64 [float].
    - An attribute that [__init__] may leave unset is an [option]; reading it
      while unset raises [AttributeError].
    - Calls that can raise return a [result].
    - The libraries the code calls (the TTS model, soundfile, hashlib, the
      file system, the host framework) are the fields of [External]; they
      are taken to return, and the model may answer differently at each
      call.
    - The threads of the program are run by an interleaving semantics
      ([Sys.step]); each step is one atomic action of one thread: a call of
      [process_update], [prepare_run] or [shutdown] on the main thread, one
      stage of a [_synthesize] thread (the model call, the frame size, one
      append), or the loop test or the loop body of a [_tts_thread]. *)

From Stdlib Require Import ZArith List String Ascii Strings.Byte Bool Lia.
From Stdlib Require Import Floats.PrimFloat Floats.FloatOps Floats.SpecFloat.
From stdpp Require Import base option list gmap strings.

Set Warnings "-inexact-float".
Open Scope Z_scope.

(** ** Python values and built-ins used by the source *)

Module Py.

Abbreviation bytes := (list byte).

Inductive exn : Type :=
| AttributeError
| KeyError
| ValueError
| OverflowError.

Inductive result (A : Type) : Type :=
| Ok (a : A)
| Raise (e : exn).
Arguments Ok {A} a.
Arguments Raise {A} e.

Definition bind {A B} (r : result A) (k : A -> result B) : result B :=
  match r with
  | Ok a => k a
  | Raise e => Raise e
  end.

(** [self.name] for an attribute that may not have been assigned. *)
Definition getattr {A} (o : option A) : result A :=
  match o with
  | Some a => Ok a
  | None => Raise AttributeError
  end.

(** Truth value of an [Optional[str]]: [None] and [""] are falsy. *)
Definition truthy (o : option string) : bool :=
  match o with
  | Some s => negb (String.eqb s "")
  | None => false
  end.

(** [sep.join(l)] *)
Fixpoint join (sep : string) (l : list string) : string :=
  match l with
  | [] => ""
  | [x] => x
  | x :: rest => x +:+ sep +:+ join sep rest
  end.

(** [p in s] on strings: [p] occurs in [s] as a substring. *)
Fixpoint contains (p s : string) : bool :=
  String.prefix p s ||
  match s with
  | EmptyString => false
  | String _ s' => contains p s'
  end.

(** [any(f(x) for x in l)] *)
Definition any {A} (f : A -> bool) (l : list A) : bool := existsb f l.

(** [s.encode("utf8")] *)
Definition encode_utf8 (s : string) : bytes := list_byte_of_string s.

(** [b[lo:hi]]: an index below zero counts from the end, and both are
    clamped to the length. *)
Definition slice_index (len i : Z) : Z :=
  if i <? 0 then Z.max 0 (i + len) else Z.min i len.

Definition slice (b : bytes) (lo hi : Z) : bytes :=
  let len := Z.of_nat (length b) in
  let lo' := slice_index len lo in
  let hi' := slice_index len hi in
  take (Z.to_nat (hi' - lo')) (drop (Z.to_nat lo') b).

(** [b.ljust(width, b"\x00")] *)
Definition ljust (b : bytes) (width : Z) : bytes :=
  b ++ repeat x00 (Z.to_nat (width - Z.of_nat (length b))).

(** [b"\x00" * n] *)
Definition zeros (n : Z) : bytes := repeat x00 (Z.to_nat n).

(** [range(start, stop, step)], as a list; a zero step is a ValueError. *)
Definition range_len (start stop step : Z) : Z :=
  if 0 <? step then
    (if start <? stop then (stop - start - 1) / step + 1 else 0)
  else
    (if stop <? start then (start - stop - 1) / (- step) + 1 else 0).

Definition range (start stop step : Z) : result (list Z) :=
  if step =? 0 then Raise ValueError
  else Ok (map (fun k => start + Z.of_nat k * step)
               (seq 0 (Z.to_nat (range_len start stop step)))).

(** The conversion of an [int] operand in [int * float]: the nearest
    binary64, ties to even; OverflowError when it is out of range. *)
Definition float_of_int (n : Z) : result float :=
  let f := SF2Prim (binary_normalize prec emax n 0 false) in
  if is_infinity f then Raise OverflowError else Ok f.

(** [int(x)] on a float: truncation toward zero; [nan] is a ValueError and
    an infinity an OverflowError. *)
Definition int (x : float) : result Z :=
  match Prim2SF x with
  | S754_zero _ => Ok 0
  | S754_finite s m e =>
      let q := match e with
               | Z0 => Zpos m
               | Zpos p => Zpos m * 2 ^ Zpos p
               | Zneg p => Zpos m / 2 ^ Zpos p
               end in
      Ok (if s then - q else q)
  | S754_infinity _ => Raise OverflowError
  | S754_nan => Raise ValueError
  end.

(** [n * x] with [n] an int and [x] a float. *)
Definition int_mul_float (n : Z) (x : float) : result float :=
  bind (float_of_int n) (fun f => Ok (f * x)%float).

(** The argument check of [time.sleep(d)]: a negative or [nan] duration is
    a ValueError, an infinite one an OverflowError. (A finite duration
    beyond the platform's clock range, some 292 years, is taken to be
    accepted.) *)
Definition sleep (d : float) : result unit :=
  if is_nan d then Raise ValueError
  else if (d <? 0)%float then Raise ValueError
  else if is_infinity d then Raise OverflowError
  else Ok tt.

(** [os.path.join(a, b)] for a relative [b]. *)
Definition ends_with_slash (a : string) : bool :=
  match rev (list_ascii_of_string a) with
  | c :: _ => Ascii.eqb c "/"
  | [] => false
  end.

Definition path_join (a b : string) : string :=
  if String.eqb a "" then b
  else if ends_with_slash a then a +:+ b
  else a +:+ "/" +:+ b.

End Py.

Export Py.

(** [result] is an error monad; [x ← c; k] runs [k] when [c] did not raise. *)
#[export] Instance result_ret : MRet result := @Ok.
#[export] Instance result_bind : MBind result := fun A B k r => Py.bind r k.

(** [d[k]] and [d.get(k, default)] on a dict with string keys. *)
Definition getitem {V} (d : gmap string V) (k : string) : result V :=
  match d !! k with
  | Some v => Ok v
  | None => Raise KeyError
  end.

Definition dict_get {V} (d : gmap string V) (k : string) (dflt : V) : V :=
  default dflt (d !! k).

Definition dict_mem {V} (d : gmap string V) (k : string) : bool :=
  match d !! k with
  | Some _ => true
  | None => false
  end.

(** ** The host framework's units *)

Module TextIU.
(** A text increment: [iuid] identifies it, [language] is [None] when the
    unit has no [language] attribute or holds [None]. *)
Record t : Type := mk {
  iuid : Z;
  text : string;
  language : option string;
  committed : bool
}.
End TextIU.

Inductive UpdateType : Type := ADD | REVOKE | COMMIT.

Abbreviation UpdateMessage := (list (TextIU.t * UpdateType)).

(** A chunk in [audio_buffer]. [origin] and [offset] are ghost labels: the
    synthesis thread that appended it and the loop index [i] it was cut at;
    the code holds the [pcm] bytes only. *)
Record Frame : Type := mkFrame {
  origin : nat;
  offset : Z;
  pcm : bytes
}.

Module AudioIU.
(** What [create_iu] followed by [set_audio(raw_audio, nframes, rate,
    sample_width)] builds. *)
Record t : Type := mk {
  grounded_in : option TextIU.t;
  raw_audio : bytes;
  nframes : Z;
  rate : Z;
  sample_width : Z
}.
End AudioIU.

(** ** External collaborators *)

Abbreviation Waveform := (list float).

(** The file system, as far as the cache sees it, and the number of calls made
    to the model so far. *)
Record World : Type := mkWorld {
  fs : gmap string bytes;
  tts_calls : nat
}.

Class External : Type := {
  (** [hashlib.sha256(b).hexdigest()] *)
  sha256_hexdigest : bytes -> string;
  (** [os.path.expanduser] *)
  expanduser : string -> string;
  (** [TTS(model_name=m).synthesizer.output_sample_rate] *)
  output_sample_rate : option string -> Z;
  (** What [tts.tts] returns at its [n]-th call ever, for the loaded model,
      with [Some (speaker, language)] when they are passed, and the text. *)
  tts_tts : nat -> option string -> option (option string * string) ->
            string -> Waveform;
  (** The bytes of the file that [sf.write(name, (wav * 32767).astype(int16),
      rate, subtype="PCM_16")] writes. *)
  pcm16_file : Waveform -> Z -> bytes;
  (** The name [tempfile.NamedTemporaryFile(suffix=".wav")] picks. *)
  mktemp : gmap string bytes -> string;
  (** [AbstractModule.revoke], as it acts on [current_input]. *)
  revoke : list TextIU.t -> TextIU.t -> list TextIU.t
}.

Definition MULTILINGUAL_MODEL : string :=
  "tts_models/multilingual/multi-dataset/xtts_v2".

(** ** class CoquiTTS *)

Module CoquiTTS.

(** The attributes of an instance; each is [None] until assigned. [tts]
    holds the model name the [TTS] handle was loaded with. *)
Record t : Type := mk {
  model_name : option (option string);
  speaker : option (option string);
  language : option string;
  caching : option bool;
  tmp_dir : option string;
  tts : option (option string);
  sample_rate : option Z
}.

(** An instance on which nothing was assigned. *)
Definition bare : t := mk None None None None None None None.

Definition __init__ `{External} (model_name speaker language : option string)
    (caching : bool) (tmp_dir : string) : t :=
  match language with
  | None => bare
  | Some l =>
      mk (Some model_name) (Some speaker) (Some l) (Some caching)
         (Some (expanduser tmp_dir)) (Some model_name)
         (Some (output_sample_rate model_name))
  end.

Definition get_cache_path `{External} (self : t) (text : string)
    : result string :=
  let t := encode_utf8 text in
  m ← getattr (model_name self);
  mb ← match m with
       | Some s => Ok (encode_utf8 s)
       | None => Raise AttributeError
       end;
  let key := sha256_hexdigest (t ++ mb) in
  d ← getattr (tmp_dir self);
  Ok (path_join d (key +:+ ".wav")).

(** The part of [synthesize] after the cache lookup missed: call the
    model, write the temporary file, read it back and fill the cache. *)
Definition render `{External} (self : t) (text : string) (c : bool)
    (cache_path : string) (w : World) : result bytes * World :=
  match
    (m ← getattr (model_name self);
     h ← getattr (tts self);
     if bool_decide (m = Some MULTILINGUAL_MODEL) then
       sp ← getattr (speaker self);
       l ← getattr (language self);
       Ok (h, Some (sp, l))
     else Ok (h, None))
  with
  | Raise e => (Raise e, w)
  | Ok (h, args) =>
      let wav := tts_tts (tts_calls w) h args text in
      let w1 := mkWorld (fs w) (S (tts_calls w)) in
      let tmpf := mktemp (fs w1) in
      let w2 := mkWorld (<[tmpf := []]> (fs w1)) (tts_calls w1) in
      match getattr (sample_rate self) with
      | Raise e => (Raise e, w2)
      | Ok sr =>
          let data := pcm16_file wav sr in
          let w3 := mkWorld (<[tmpf := data]> (fs w2)) (tts_calls w2) in
          if c then
            (Ok data, mkWorld (<[cache_path := data]> (fs w3)) (tts_calls w3))
          else (Ok data, w3)
      end
  end.

Definition synthesize `{External} (self : t) (text : string) (w : World)
    : result bytes * World :=
  match get_cache_path self text with
  | Raise e => (Raise e, w)
  | Ok cache_path =>
      match getattr (caching self) with
      | Raise e => (Raise e, w)
      | Ok c =>
          match (if c then fs w !! cache_path else None) with
          | Some data => (Ok data, w)
          | None => render self text c cache_path w
          end
      end
  end.

End CoquiTTS.

(** ** class MultilingualTTSModule *)

Module MultilingualTTSModule.

Definition LANGUAGE_MAPPING : gmap string (string * option string) :=
  list_to_map [
    ("all", (MULTILINGUAL_MODEL, Some "Brenda Stern"));
    ("de", ("tts_models/de/thorsten/vits", None));
    ("en", ("tts_models/en/ljspeech/vits", None));
    ("es", ("tts_models/es/css10/vits", None));
    ("fr", ("tts_models/fr/css10/vits", None));
    ("fi", ("tts_models/fi/css10/vits", None));
    ("hu", ("tts_models/hu/css10/vits", None));
    ("it", ("tts_models/it/mai_female/vits", None));
    ("ja", ("tts_models/ja/kokoro/tacotron2-DDC", None));
    ("lv", ("tts_models/lv/cv/vits", None));
    ("nl", ("tts_models/nl/css10/vits", None));
    ("pl", ("tts_models/pl/mai_female/vits", None));
    ("pt", ("tts_models/pt/cv/vits", None))
  ].

(** The attributes of the module. [current_input] is the one inherited
    from [AbstractModule]; [language] and [tts] are first assigned by
    [process_update]. *)
Record t : Type := mk {
  sample_rate : Z;
  wished_language : option string;
  dispatch_on_finish : bool;
  frame_duration : float;
  samplewidth : Z;
  _tts_thread_active : bool;
  _latest_text : string;
  latest_input_iu : option TextIU.t;
  audio_buffer : list Frame;
  audio_pointer : Z;
  current_input : list TextIU.t;
  language : option string;
  tts : option CoquiTTS.t
}.

Definition set_sample_rate (v : Z) (s : t) : t :=
  mk v (wished_language s) (dispatch_on_finish s) (frame_duration s)
     (samplewidth s) (_tts_thread_active s) (_latest_text s)
     (latest_input_iu s) (audio_buffer s) (audio_pointer s)
     (current_input s) (language s) (tts s).

Definition set__tts_thread_active (v : bool) (s : t) : t :=
  mk (sample_rate s) (wished_language s) (dispatch_on_finish s)
     (frame_duration s) (samplewidth s) v (_latest_text s)
     (latest_input_iu s) (audio_buffer s) (audio_pointer s)
     (current_input s) (language s) (tts s).

Definition set__latest_text (v : string) (s : t) : t :=
  mk (sample_rate s) (wished_language s) (dispatch_on_finish s)
     (frame_duration s) (samplewidth s) (_tts_thread_active s) v
     (latest_input_iu s) (audio_buffer s) (audio_pointer s)
     (current_input s) (language s) (tts s).

Definition set_latest_input_iu (v : option TextIU.t) (s : t) : t :=
  mk (sample_rate s) (wished_language s) (dispatch_on_finish s)
     (frame_duration s) (samplewidth s) (_tts_thread_active s)
     (_latest_text s) v (audio_buffer s) (audio_pointer s)
     (current_input s) (language s) (tts s).

Definition set_audio_buffer (v : list Frame) (s : t) : t :=
  mk (sample_rate s) (wished_language s) (dispatch_on_finish s)
     (frame_duration s) (samplewidth s) (_tts_thread_active s)
     (_latest_text s) (latest_input_iu s) v (audio_pointer s)
     (current_input s) (language s) (tts s).

Definition set_audio_pointer (v : Z) (s : t) : t :=
  mk (sample_rate s) (wished_language s) (dispatch_on_finish s)
     (frame_duration s) (samplewidth s) (_tts_thread_active s)
     (_latest_text s) (latest_input_iu s) (audio_buffer s) v
     (current_input s) (language s) (tts s).

Definition set_current_input (v : list TextIU.t) (s : t) : t :=
  mk (sample_rate s) (wished_language s) (dispatch_on_finish s)
     (frame_duration s) (samplewidth s) (_tts_thread_active s)
     (_latest_text s) (latest_input_iu s) (audio_buffer s)
     (audio_pointer s) v (language s) (tts s).

Definition set_language (v : option string) (s : t) : t :=
  mk (sample_rate s) (wished_language s) (dispatch_on_finish s)
     (frame_duration s) (samplewidth s) (_tts_thread_active s)
     (_latest_text s) (latest_input_iu s) (audio_buffer s)
     (audio_pointer s) (current_input s) v (tts s).

Definition set_tts (v : option CoquiTTS.t) (s : t) : t :=
  mk (sample_rate s) (wished_language s) (dispatch_on_finish s)
     (frame_duration s) (samplewidth s) (_tts_thread_active s)
     (_latest_text s) (latest_input_iu s) (audio_buffer s)
     (audio_pointer s) (current_input s) (language s) v.

Definition set_dispatch_on_finish (v : bool) (s : t) : t :=
  mk (sample_rate s) (wished_language s) v (frame_duration s)
     (samplewidth s) (_tts_thread_active s) (_latest_text s)
     (latest_input_iu s) (audio_buffer s) (audio_pointer s)
     (current_input s) (language s) (tts s).

(** [__init__(language, dispatch_on_finish, frame_duration)]; the defaults
    are [None], [True] and [0.2]. *)
Definition __init__ (language : option string) (dispatch_on_finish : bool)
    (frame_duration : float) : t :=
  let wished :=
    match language with
    | Some l => if dict_mem LANGUAGE_MAPPING l then Some l else None
    | None => None
    end in
  mk 22050 wished dispatch_on_finish frame_duration 2 false ""
     None [] 0 [] None None.

Definition current_text (self : t) : string :=
  join " " (map TextIU.text (current_input self)).

(** The language an increment is synthesized in (lines 74 to 77). *)
Definition resolve_language (self : t) (iu : TextIU.t) : string :=
  if negb (truthy (wished_language self)) && truthy (TextIU.language iu)
  then default "" (TextIU.language iu)
  else if truthy (wished_language self)
       then default "" (wished_language self)
       else "all".

(** [LANGUAGE_MAPPING.get(language, LANGUAGE_MAPPING["all"])] *)
Definition select_model (language : string)
    : result (string * option string) :=
  dflt ← getitem LANGUAGE_MAPPING "all";
  Ok (dict_get LANGUAGE_MAPPING language dflt).

(** The finalization test of line 92. *)
Definition terminal_markers : list string := ["."; "!"; "?"].

Definition finalizes (final : bool) (current_text : string) : bool :=
  final || any (fun p => contains p current_text) terminal_markers.

(** Lines 74 to 80: the language of the increment, the model for it, a
    new [CoquiTTS] and its sample rate. *)
Definition configure `{External} (self : t) (iu : TextIU.t) : result t :=
  let lang := resolve_language self iu in
  let self := set_language (Some lang) self in
  '(model, speaker) ← select_model lang;
  let self :=
    set_tts (Some (CoquiTTS.__init__ (Some model) speaker (Some lang) true
                     "~/.cache/coqui_tts")) self in
  o ← getattr (tts self);
  sr ← getattr (CoquiTTS.sample_rate o);
  Ok (set_sample_rate sr self).

(** Lines 81 to 89: the update itself, on the module and the local [final]. *)
Definition apply_update `{External} (self : t) (final : bool)
    (iu : TextIU.t) (ut : UpdateType) : t * bool :=
  match ut with
  | ADD =>
      let self := set_current_input (current_input self ++ [iu]) self in
      let self := set_latest_input_iu (Some iu) self in
      (self, if TextIU.committed iu then true else final)
  | REVOKE => (set_current_input (revoke (current_input self) iu) self, final)
  | COMMIT => (self, true)
  end.

(** Lines 91 to 103: the finalization test and the dispatch: the buffer is
    cleared, a thread is started on the text and the input is reset. The
    second component lists the texts of the threads started so far. *)
Definition dispatch_if_final (self : t) (final : bool)
    (started : list string) : t * list string :=
  let current_text := current_text self in
  if finalizes final current_text then
    let self := set__latest_text current_text self in
    let self := set_audio_buffer [] self in
    let self := set_audio_pointer 0 self in
    let started := started ++ [current_text] in
    let self := set_current_input [] self in
    (self, started)
  else (self, started).

(** One turn of the loop of [process_update]. The state carried through
    the loop is the module, the local [final] and, in order, the texts
    that threads running [_synthesize] were started with. *)
Definition process_increment `{External}
    (st : t * bool * list string) (m : TextIU.t * UpdateType)
    : result (t * bool * list string) :=
  let '(self, final, started) := st in
  let '(iu, ut) := m in
  self ← configure self iu;
  let '(self, final) := apply_update self final iu ut in
  let '(self, started) := dispatch_if_final self final started in
  Ok (self, final, started).

Fixpoint process_loop `{External} (st : t * bool * list string)
    (um : UpdateMessage) : result (t * bool * list string) :=
  match um with
  | [] => Ok st
  | m :: rest => st' ← process_increment st m; process_loop st' rest
  end.

(** [process_update(update_message)]: the module afterwards and the texts
    of the synthesis threads it started. *)
Definition process_update `{External} (self : t) (um : UpdateMessage)
    : result (t * list string) :=
  match um with
  | [] => Ok (self, [])
  | _ =>
      '(self', _, started) ← process_loop (self, false, []) um;
      Ok (self', started)
  end.

(** [int(self.sample_rate * self.frame_duration)] *)
Definition frame_samples (self : t) : result Z :=
  x ← int_mul_float (sample_rate self) (frame_duration self);
  int x.

(** The body of [_synthesize] after the waveform is there: the frame size
    and the loop indices of [range(0, len(new_audio), frame_bytes)]. *)
Definition frame_plan (self : t) (new_audio : bytes)
    : result (Z * list Z) :=
  n ← frame_samples self;
  let frame_bytes := n * samplewidth self in
  idxs ← range 0 (Z.of_nat (length new_audio)) frame_bytes;
  Ok (frame_bytes, idxs).

(** The chunk the loop appends at index [i]. *)
Definition chunk_at (new_audio : bytes) (frame_bytes i : Z) : bytes :=
  let chunk := slice new_audio i (i + frame_bytes) in
  if Z.of_nat (length chunk) <? frame_bytes
  then ljust chunk frame_bytes
  else chunk.

(** The frames one whole run of [_synthesize] appends, when no other
    thread runs in between. *)
Definition synthesized_frames (self : t) (gen : nat) (new_audio : bytes)
    : result (list Frame) :=
  '(frame_bytes, idxs) ← frame_plan self new_audio;
  Ok (map (fun i => mkFrame gen i (chunk_at new_audio frame_bytes i)) idxs).

(** One turn of the loop of [_tts_thread], after its test: the unit that
    is passed to [self.append], the frame it was taken from ([None] for
    silence), and the module afterwards. *)
Definition tick (self : t) : result (AudioIU.t * option Frame * t) :=
  _ ← sleep (frame_duration self);
  '(raw_audio, src, self') ←
    match audio_buffer self with
    | f :: rest => Ok (pcm f, Some f, set_audio_buffer rest self)
    | [] =>
        n ← frame_samples self;
        Ok (zeros (samplewidth self * n), None, self)
    end;
  Ok (AudioIU.mk (latest_input_iu self') raw_audio 1 (sample_rate self')
        (samplewidth self'), src, self').

Definition prepare_run (self : t) : t :=
  set__tts_thread_active true (set_audio_pointer 0 (set_audio_buffer [] self)).

Definition shutdown (self : t) : t :=
  set__tts_thread_active false self.

End MultilingualTTSModule.

(** ** The running program: main thread, synthesis threads, frame scheduler *)

Module Sys.

(** Where a thread running [_synthesize(text)] stands. *)
Inductive synth_pc : Type :=
| Start (text : string)
| Rendered (new_audio : bytes)
| Appending (new_audio : bytes) (frame_bytes : Z) (todo : list Z)
| Returned
| Died (e : exn).

(** Where a thread running [_tts_thread] stands: at the test of its
    [while], inside the body (asleep, then emitting), or gone. *)
Inductive sched_pc : Type :=
| AtTest
| InBody
| Exited
| Crashed (e : exn).

(** What reached [self.append], with the buffer frame it carries. *)
Record Emitted : Type := mkEmitted {
  unit : AudioIU.t;
  source : option Frame
}.

(** [synths !! n] is the thread of the [n]-th dispatch: its generation.
    [appended] logs every frame a synthesis thread has put in the buffer. *)
Record t : Type := mk {
  module : MultilingualTTSModule.t;
  world : World;
  synths : list synth_pc;
  scheds : list sched_pc;
  output : list Emitted;
  appended : list Frame
}.

Inductive event : Type :=
| Update (um : UpdateMessage)
| Synth (n : nat)
| Sched (k : nat)
| PrepareRun
| Shutdown.

Definition init (m : MultilingualTTSModule.t) (w : World) : t :=
  mk m w [] [] [] [].

Definition step_update `{External} (s : t) (um : UpdateMessage) : t :=
  match MultilingualTTSModule.process_update (module s) um with
  | Ok (m', started) =>
      mk m' (world s) (synths s ++ map Start started) (scheds s)
         (output s) (appended s)
  | Raise _ => s
  end.

Definition step_synth `{External} (s : t) (n : nat) : t :=
  let goto pc := mk (module s) (world s) (<[n := pc]> (synths s)) (scheds s)
                    (output s) (appended s) in
  match synths s !! n with
  | Some (Start text) =>
      match getattr (MultilingualTTSModule.tts (module s)) with
      | Raise e => goto (Died e)
      | Ok o =>
          let '(r, w') := CoquiTTS.synthesize o text (world s) in
          let pc := match r with
                    | Ok new_audio => Rendered new_audio
                    | Raise e => Died e
                    end in
          mk (module s) w' (<[n := pc]> (synths s)) (scheds s)
             (output s) (appended s)
      end
  | Some (Rendered new_audio) =>
      match MultilingualTTSModule.frame_plan (module s) new_audio with
      | Ok (frame_bytes, idxs) => goto (Appending new_audio frame_bytes idxs)
      | Raise e => goto (Died e)
      end
  | Some (Appending new_audio frame_bytes (i :: rest)) =>
      let f := mkFrame n i
                 (MultilingualTTSModule.chunk_at new_audio frame_bytes i) in
      let m := module s in
      mk (MultilingualTTSModule.set_audio_buffer
            (MultilingualTTSModule.audio_buffer m ++ [f]) m)
         (world s)
         (<[n := Appending new_audio frame_bytes rest]> (synths s))
         (scheds s) (output s) (appended s ++ [f])
  | Some (Appending _ _ []) => goto Returned
  | Some Returned | Some (Died _) | None => s
  end.

Definition step_sched (s : t) (k : nat) : t :=
  let goto pc := mk (module s) (world s) (synths s) (<[k := pc]> (scheds s))
                    (output s) (appended s) in
  match scheds s !! k with
  | Some AtTest =>
      if MultilingualTTSModule._tts_thread_active (module s)
      then goto InBody else goto Exited
  | Some InBody =>
      match MultilingualTTSModule.tick (module s) with
      | Ok (iu, src, m') =>
          mk m' (world s) (synths s) (<[k := AtTest]> (scheds s))
             (output s ++ [mkEmitted iu src]) (appended s)
      | Raise e => goto (Crashed e)
      end
  | Some Exited | Some (Crashed _) | None => s
  end.

Definition step `{External} (s : t) (e : event) : t :=
  match e with
  | Update um => step_update s um
  | Synth n => step_synth s n
  | Sched k => step_sched s k
  | PrepareRun =>
      mk (MultilingualTTSModule.prepare_run (module s)) (world s) (synths s)
         (scheds s ++ [AtTest]) (output s) (appended s)
  | Shutdown =>
      mk (MultilingualTTSModule.shutdown (module s)) (world s) (synths s)
         (scheds s) (output s) (appended s)
  end.

Definition run `{External} (s : t) (es : list event) : t :=
  fold_left step es s.


(** The number of scheduler threads that are inside their loop body. *)
Definition is_in_body (pc : sched_pc) : bool :=
  match pc with
  | InBody => true
  | _ => false
  end.

Definition in_body (pcs : list sched_pc) : nat :=
  length (List.filter is_in_body pcs).

(** The number of synthesis threads that have not called the model yet. *)
Definition is_start (pc : synth_pc) : bool :=
  match pc with
  | Start _ => true
  | _ => false
  end.

Definition pending_starts (pcs : list synth_pc) : nat :=
  length (List.filter is_start pcs).

(** What a tick emits for the buffer frame [f] when the module is [m]. *)
Definition emitted_frame (m : MultilingualTTSModule.t) (f : Frame) : Emitted :=
  mkEmitted
    (AudioIU.mk (MultilingualTTSModule.latest_input_iu m) (pcm f) 1
       (MultilingualTTSModule.sample_rate m)
       (MultilingualTTSModule.samplewidth m))
    (Some f).

(** Thread [n] has computed its plan for the waveform [new_audio] with the
    frame size [frame_bytes]: it is in its loop with indices that are not
    negative (and a positive frame size while some are left), or it is done. *)
Definition planned (n : nat) (new_audio : bytes) (frame_bytes : Z) (s : t)
    : Prop :=
  match synths s !! n with
  | Some (Appending new_audio' frame_bytes' todo) =>
      new_audio' = new_audio ∧ frame_bytes' = frame_bytes ∧
      Forall (fun i => 0 ≤ i ∧ 0 < frame_bytes) todo
  | Some Returned | Some (Died _) => True
  | _ => False
  end.

(** Whenever a synthesis thread exists, [self.tts] is a [CoquiTTS] that was
    constructed with a model name and a language. *)
Definition tts_ready `{External} (s : t) : Prop :=
  synths s = [] ∨
  ∃ m sp l,
    MultilingualTTSModule.tts (module s)
    = Some (CoquiTTS.__init__ (Some m) sp (Some l) true "~/.cache/coqui_tts").

End Sys.

(** ** A concrete stand-in for the external collaborators

    Used to run the program on concrete inputs: every model has the sample
    rate 22050, answers a text of [n] bytes with [1000 * n] samples, and a
    file is 44 header bytes followed by two bytes a sample. *)

Definition demo_external : External := {|
  sha256_hexdigest := fun b => string_of_list_byte b;
  expanduser := fun p => p;
  output_sample_rate := fun _ => 22050;
  tts_tts := fun _ _ _ text => repeat 0.5%float (1000 * String.length text)%nat;
  pcm16_file := fun wav _ => repeat x52 44 ++ flat_map (fun _ => [xff; x3f]) wav;
  mktemp := fun _ => "/tmp/tmpq0w1e2r3.wav";
  revoke := fun cur iu =>
    filter (fun c => TextIU.iuid c ≠ TextIU.iuid iu) cur
|}.

Definition empty_world : World := mkWorld ∅ 0.

(** ** The words of the specification

    [has_char c s]: the character [c] occurs in the text [s].
    [joined_by_single_spaces l]: the texts of [l] in order, with a single
    space between neighbours, built from the left as a reader would. *)

Definition has_char (c : ascii) (s : string) : Prop :=
  In c (list_ascii_of_string s).

Definition joined_by_single_spaces (l : list string) : string :=
  match l with
  | [] => ""
  | x :: rest => fold_left (fun acc y => acc +:+ " " +:+ y) rest x
  end.

(** [nominal_frame_bytes]: the frame length the specification names,
    [sample_rate * frame_duration * sample_width_bytes], in Python's
    arithmetic and without the truncation to whole samples. *)
Definition nominal_frame_bytes (self : MultilingualTTSModule.t)
    : result float :=
  x ← int_mul_float (MultilingualTTSModule.sample_rate self)
        (MultilingualTTSModule.frame_duration self);
  w ← float_of_int (MultilingualTTSModule.samplewidth self);
  Ok (x * w)%float.

(** [is_ADD m]: the increment [m] of an update message is an ADD. *)
Definition is_ADD (m : TextIU.t * UpdateType) : bool :=
  match m.2 with
  | ADD => true
  | _ => false
  end.

(** * Properties *)

Section Properties.

Context `{E : External}.

Import MultilingualTTSModule.

(** ** CoquiTTS: construction without a language *)

(** C9: constructed with [language=None], [__init__] returns before any
    assignment: no attribute is set, whatever the other arguments are, and
    both [get_cache_path] and [synthesize] raise AttributeError (the world
    is left as it was). *)
Theorem CoquiTTS_without_language_raises
    (model_name speaker : option string) (caching : bool) (tmp_dir : string)
    (text : string) (w : World) :
  let o := CoquiTTS.__init__ model_name speaker None caching tmp_dir in
  (CoquiTTS.model_name o = None ∧ CoquiTTS.speaker o = None ∧
   CoquiTTS.language o = None ∧ CoquiTTS.caching o = None ∧
   CoquiTTS.tmp_dir o = None ∧ CoquiTTS.tts o = None ∧
   CoquiTTS.sample_rate o = None) ∧
  CoquiTTS.get_cache_path o text = Raise AttributeError ∧
  CoquiTTS.synthesize o text w = (Raise AttributeError, w).
Proof.
  cbn zeta. split; [by repeat split|]. split; reflexivity.
Qed.

(** ** Language and model selection *)

Lemma LANGUAGE_MAPPING_all :
  getitem LANGUAGE_MAPPING "all" = Ok (MULTILINGUAL_MODEL, Some "Brenda Stern").
Proof. vm_compute. reflexivity. Qed.

Lemma select_model_eq (l : string) :
  select_model l =
  Ok (dict_get LANGUAGE_MAPPING l (MULTILINGUAL_MODEL, Some "Brenda Stern")).
Proof. unfold select_model. rewrite LANGUAGE_MAPPING_all. reflexivity. Qed.

(** [configure] never raises: the mapping has its "all" entry and the
    [CoquiTTS] it builds gets a language, so its sample rate is set. *)
Lemma configure_eq (self : t) (iu : TextIU.t) :
  let lang := resolve_language self iu in
  let ms := dict_get LANGUAGE_MAPPING lang (MULTILINGUAL_MODEL, Some "Brenda Stern") in
  configure self iu =
  Ok (set_sample_rate (output_sample_rate (Some ms.1))
        (set_tts (Some (CoquiTTS.__init__ (Some ms.1) ms.2 (Some lang) true
                          "~/.cache/coqui_tts"))
           (set_language (Some lang) self))).
Proof.
  cbn zeta. unfold configure. rewrite select_model_eq.
  destruct (dict_get _ _ _) as [model speaker]. reflexivity.
Qed.

Lemma process_increment_eq (self : t) (final : bool) (started : list string)
    (iu : TextIU.t) (ut : UpdateType) :
  process_increment (self, final, started) (iu, ut) =
  Py.bind (configure self iu) (fun self1 =>
    Ok ((dispatch_if_final (apply_update self1 final iu ut).1
           (apply_update self1 final iu ut).2 started).1,
        (apply_update self1 final iu ut).2,
        (dispatch_if_final (apply_update self1 final iu ut).1
           (apply_update self1 final iu ut).2 started).2)).
Proof.
  unfold process_increment. destruct (configure self iu) as [self1|e]; [|done].
  cbn. destruct (apply_update _ _ _ _) as [s2 f2].
  destruct (dispatch_if_final _ _ _) as [s3 st3]. reflexivity.
Qed.

(** What stays untouched by the later blocks of a loop turn. *)
Lemma apply_update_keeps (self : t) (final : bool) (iu : TextIU.t)
    (ut : UpdateType) :
  let s := (apply_update self final iu ut).1 in
  tts s = tts self ∧ language s = language self ∧
  sample_rate s = sample_rate self ∧
  _tts_thread_active s = _tts_thread_active self ∧
  audio_buffer s = audio_buffer self ∧
  frame_duration s = frame_duration self ∧ samplewidth s = samplewidth self.
Proof. destruct ut; cbn; by repeat split. Qed.

Lemma dispatch_if_final_keeps (self : t) (final : bool) (started : list string) :
  let s := (dispatch_if_final self final started).1 in
  tts s = tts self ∧ language s = language self ∧
  sample_rate s = sample_rate self ∧
  _tts_thread_active s = _tts_thread_active self ∧
  frame_duration s = frame_duration self ∧ samplewidth s = samplewidth self.
Proof.
  unfold dispatch_if_final. destruct (finalizes _ _); cbn; by repeat split.
Qed.

(** C8: when the language resolved for an increment is not a key of
    [LANGUAGE_MAPPING], the loop turn does not raise and the [CoquiTTS] it
    installs is built from the "all" entry: the multilingual model with the
    voice "Brenda Stern", for that language. *)
Theorem unmapped_language_falls_back
    (self : t) (final : bool) (started : list string)
    (iu : TextIU.t) (ut : UpdateType) :
  LANGUAGE_MAPPING !! resolve_language self iu = None →
  select_model (resolve_language self iu) =
    Ok (MULTILINGUAL_MODEL, Some "Brenda Stern") ∧
  ∃ self' final' started',
    process_increment (self, final, started) (iu, ut) =
      Ok (self', final', started') ∧
    language self' = Some (resolve_language self iu) ∧
    tts self' =
      Some (CoquiTTS.__init__ (Some MULTILINGUAL_MODEL) (Some "Brenda Stern")
              (Some (resolve_language self iu)) true "~/.cache/coqui_tts").
Proof.
  intros Hnone.
  assert (Hd : dict_get LANGUAGE_MAPPING (resolve_language self iu)
                 (MULTILINGUAL_MODEL, Some "Brenda Stern")
               = (MULTILINGUAL_MODEL, Some "Brenda Stern")).
  { unfold dict_get. rewrite Hnone. reflexivity. }
  split; [rewrite select_model_eq, Hd; reflexivity|].
  rewrite process_increment_eq, configure_eq. cbn zeta. rewrite Hd.
  cbn [Py.bind]. eexists _, _, _. split; [reflexivity|].
  match goal with
  | |- context [dispatch_if_final ?a ?b ?c] =>
      destruct (dispatch_if_final_keeps a b c) as (-> & -> & _)
  end.
  match goal with
  | |- context [apply_update ?a ?b ?c ?d] =>
      destruct (apply_update_keeps a b c d) as (-> & -> & _)
  end.
  split; reflexivity.
Qed.

(** C10: a module constructed with a language that is not a key of
    [LANGUAGE_MAPPING] ([None] included) has [wished_language = None] and is
    the very module the auto case ([language=None]) constructs, so it behaves
    the same from then on; for each increment the language is the
    increment's own tag when it has one (an empty tag counts as none), and
    "all" otherwise. *)
Theorem unknown_language_is_auto
    (language : option string) (dispatch_on_finish : bool)
    (frame_duration : float) :
  (∀ l, language = Some l → LANGUAGE_MAPPING !! l = None) →
  let self := __init__ language dispatch_on_finish frame_duration in
  wished_language self = None ∧
  self = __init__ None dispatch_on_finish frame_duration ∧
  ∀ iu : TextIU.t,
    resolve_language self iu =
    match TextIU.language iu with
    | Some tag => if String.eqb tag "" then "all" else tag
    | None => "all"
    end.
Proof.
  intros Hkey. cbn zeta.
  assert (Hw : __init__ language dispatch_on_finish frame_duration
               = __init__ None dispatch_on_finish frame_duration).
  { unfold __init__. destruct language as [l|]; [|reflexivity].
    unfold dict_mem. rewrite (Hkey l eq_refl). reflexivity. }
  rewrite Hw. split; [reflexivity|]. split; [reflexivity|].
  intros iu. unfold resolve_language. cbn.
  destruct (TextIU.language iu) as [tag|]; cbn; [|reflexivity].
  destruct (String.eqb tag ""); reflexivity.
Qed.

(** ** The waveform cache *)

Lemma synthesize_hit (self : CoquiTTS.t) (text p : string) (data : bytes)
    (w : World) :
  CoquiTTS.get_cache_path self text = Ok p →
  CoquiTTS.caching self = Some true →
  fs w !! p = Some data →
  CoquiTTS.synthesize self text w = (Ok data, w).
Proof.
  intros Hp Hc Hfs. unfold CoquiTTS.synthesize.
  rewrite Hp, Hc. cbn. rewrite Hfs. reflexivity.
Qed.

(** With caching on, a call that returns leaves its bytes under the cache
    path, and has called the model at most once. *)
Lemma synthesize_fills_cache (self : CoquiTTS.t) (text : string)
    (data : bytes) (w w1 : World) :
  CoquiTTS.caching self = Some true →
  CoquiTTS.synthesize self text w = (Ok data, w1) →
  ∃ p, CoquiTTS.get_cache_path self text = Ok p ∧
       fs w1 !! p = Some data ∧
       (tts_calls w1 ≤ S (tts_calls w))%nat.
Proof.
  intros Hc. unfold CoquiTTS.synthesize. rewrite Hc.
  destruct (CoquiTTS.get_cache_path self text) as [p|e] eqn:Hp; [|done].
  cbn. destruct (fs w !! p) as [cached|] eqn:Hfs.
  - intros [= <- <-]. exists p. repeat split; [done|lia].
  - unfold CoquiTTS.render.
    destruct (_ ← getattr (CoquiTTS.model_name self); _) as [[h args]|e]; [|done].
    destruct (getattr (CoquiTTS.sample_rate self)) as [sr|e]; [|done].
    intros [= <- <-]. exists p. cbn. split; [done|].
    split; [apply lookup_insert_eq|lia].
Qed.

(** The same for any instance, as far as the first call returns. *)
Lemma synthesize_twice (self : CoquiTTS.t) (text : string) (data : bytes)
    (w w1 : World) :
  CoquiTTS.caching self = Some true →
  CoquiTTS.synthesize self text w = (Ok data, w1) →
  CoquiTTS.synthesize self text w1 = (Ok data, w1) ∧
  (tts_calls w1 ≤ S (tts_calls w))%nat.
Proof.
  intros Hc H1.
  destruct (synthesize_fills_cache _ _ _ _ _ Hc H1) as (p & Hp & Hfs & Hn).
  split; [by eapply synthesize_hit|done].
Qed.

(** A constructed instance with a model name and a language returns. *)
Lemma synthesize_returns (m : string) (speaker : option string)
    (l tmp_dir text : string) (caching : bool) (w : World) :
  ∃ data w1,
    CoquiTTS.synthesize
      (CoquiTTS.__init__ (Some m) speaker (Some l) caching tmp_dir) text w
    = (Ok data, w1).
Proof.
  unfold CoquiTTS.synthesize. cbn.
  destruct (if caching then _ else _) as [cached|]; [by eexists _, _|].
  unfold CoquiTTS.render. cbn.
  destruct (bool_decide _); cbn; destruct caching; by eexists _, _.
Qed.

(** C6: on an instance constructed with caching on (and a model name and a
    language, so that the calls return), the first [synthesize] of a text
    returns some bytes, the second returns the same bytes without touching
    the world, and the model has been called at most once over the two. *)
Theorem cache_round_trip (m : string) (speaker : option string)
    (l tmp_dir text : string) (w : World) :
  let self := CoquiTTS.__init__ (Some m) speaker (Some l) true tmp_dir in
  ∃ data w1,
    CoquiTTS.synthesize self text w = (Ok data, w1) ∧
    CoquiTTS.synthesize self text w1 = (Ok data, w1) ∧
    (tts_calls w1 ≤ S (tts_calls w))%nat.
Proof.
  cbn zeta.
  destruct (synthesize_returns m speaker l tmp_dir text true w)
    as (data & w1 & H1).
  exists data, w1. split; [done|].
  by eapply synthesize_twice.
Qed.

(** ** Text accumulation *)

Lemma append_cons (x : ascii) (a b : string) :
  String x a +:+ b = String x (a +:+ b).
Proof. reflexivity. Qed.

Lemma append_assoc (a b c : string) : (a +:+ b) +:+ c = a +:+ (b +:+ c).
Proof.
  induction a as [|x a IH]; [reflexivity|].
  by rewrite !append_cons, IH.
Qed.

Lemma chars_append (a b : string) :
  list_ascii_of_string (a +:+ b)
  = list_ascii_of_string a ++ list_ascii_of_string b.
Proof.
  induction a as [|x a IH]; [reflexivity|].
  rewrite append_cons. cbn [list_ascii_of_string app]. by rewrite IH.
Qed.

Lemma join_cons (sep x : string) (l : list string) :
  l ≠ [] → join sep (x :: l) = x +:+ sep +:+ join sep l.
Proof. destruct l; [done|reflexivity]. Qed.

Lemma join_app (sep : string) (l1 l2 : list string) :
  l1 ≠ [] → l2 ≠ [] →
  join sep (l1 ++ l2) = join sep l1 +:+ sep +:+ join sep l2.
Proof.
  intros H1 H2. induction l1 as [|x l1 IH]; [done|].
  destruct l1 as [|y l1].
  - cbn [app]. by rewrite join_cons.
  - rewrite <- app_comm_cons, join_cons by done.
    rewrite IH by done. rewrite (join_cons sep x (y :: l1)) by done.
    by rewrite !append_assoc.
Qed.

Lemma join_snoc (sep x : string) (l : list string) :
  l ≠ [] → join sep (l ++ [x]) = join sep l +:+ sep +:+ x.
Proof. intros H. by rewrite join_app. Qed.

(** The join of the code is the left-to-right concatenation of the spec. *)
Lemma join_spaces_spec (l : list string) :
  join " " l = joined_by_single_spaces l.
Proof.
  destruct l as [|x rest]; [reflexivity|]. cbn [joined_by_single_spaces].
  revert x. induction rest as [|y rest IH] using rev_ind; intros x.
  - reflexivity.
  - rewrite fold_left_app. cbn [fold_left]. rewrite <- IH.
    rewrite app_comm_cons, join_snoc by done. reflexivity.
Qed.

(** [p in s] for a one-character [p] is the occurrence of the character. *)
Lemma contains_char (c : ascii) (s : string) :
  contains (String c "") s = true ↔ has_char c s.
Proof.
  unfold has_char. induction s as [|a s IH]; cbn.
  - split; [done|tauto].
  - rewrite orb_true_iff, IH. destruct (ascii_dec c a) as [->|Hne].
    + split; [auto|]. intros _. left. by destruct s.
    + split; [intros [?|?]; [done|auto]|]. intros [?|?]; [congruence|auto].
Qed.


(** The finalization test without an explicit commit, in the spec's words. *)
Lemma finalizes_false_iff (text : string) :
  finalizes false text = false ↔
  ¬ has_char "." text ∧ ¬ has_char "!" text ∧ ¬ has_char "?" text.
Proof.
  unfold finalizes, any, terminal_markers. cbn [existsb orb].
  rewrite !orb_false_iff, <- !contains_char, !not_true_iff_false. tauto.
Qed.

Lemma configure_keeps (self : t) (iu : TextIU.t) :
  ∃ self1, configure self iu = Ok self1 ∧
    current_input self1 = current_input self ∧
    audio_buffer self1 = audio_buffer self ∧
    _tts_thread_active self1 = _tts_thread_active self ∧
    frame_duration self1 = frame_duration self ∧
    samplewidth self1 = samplewidth self ∧
    latest_input_iu self1 = latest_input_iu self.
Proof. eexists. rewrite configure_eq. by repeat split. Qed.

Lemma apply_update_ADD (self : t) (final : bool) (iu : TextIU.t) :
  apply_update self final iu ADD =
  (set_latest_input_iu (Some iu)
     (set_current_input (current_input self ++ [iu]) self),
   if TextIU.committed iu then true else final).
Proof. reflexivity. Qed.

Lemma dispatch_if_final_false (self : t) (final : bool)
    (started : list string) :
  finalizes final (current_text self) = false →
  dispatch_if_final self final started = (self, started).
Proof. intros H. unfold dispatch_if_final. by rewrite H. Qed.

Lemma dispatch_if_final_true (self : t) (final : bool)
    (started : list string) :
  finalizes final (current_text self) = true →
  dispatch_if_final self final started =
  (set_current_input []
     (set_audio_pointer 0
        (set_audio_buffer [] (set__latest_text (current_text self) self))),
   started ++ [current_text self]).
Proof. intros H. unfold dispatch_if_final. by rewrite H. Qed.

(** An ADD that does not finalize: appended in insertion order, nothing
    started, buffer untouched. *)
Lemma process_increment_ADD_quiet (self : t) (started : list string)
    (iu : TextIU.t) :
  TextIU.committed iu = false →
  finalizes false (join " " (map TextIU.text (current_input self ++ [iu])))
    = false →
  ∃ self', process_increment (self, false, started) (iu, ADD)
             = Ok (self', false, started) ∧
    current_input self' = current_input self ++ [iu] ∧
    audio_buffer self' = audio_buffer self.
Proof.
  intros Hc Hf. rewrite process_increment_eq.
  destruct (configure_keeps self iu) as (s1 & -> & Hi & Hb & _).
  cbn [Py.bind]. rewrite apply_update_ADD, Hc. cbn [fst snd].
  rewrite dispatch_if_final_false
    by (unfold current_text; cbn [current_input set_latest_input_iu
          set_current_input]; by rewrite Hi).
  eexists. split; [reflexivity|]. cbn. by rewrite Hi, Hb.
Qed.

(** An ADD that finalizes: one thread started on the joined text, the
    buffer and the pending input emptied. *)
Lemma process_increment_ADD_final (self : t) (final : bool)
    (started : list string) (iu : TextIU.t) :
  let text := join " " (map TextIU.text (current_input self ++ [iu])) in
  let final' := if TextIU.committed iu then true else final in
  finalizes final' text = true →
  ∃ self', process_increment (self, final, started) (iu, ADD)
             = Ok (self', final', started ++ [text]) ∧
    current_input self' = [] ∧ audio_buffer self' = [] ∧
    _latest_text self' = text.
Proof.
  cbn zeta. intros Hf. rewrite process_increment_eq.
  destruct (configure_keeps self iu) as (s1 & -> & Hi & Hb & _).
  cbn [Py.bind]. rewrite apply_update_ADD. cbn [fst snd].
  rewrite dispatch_if_final_true
    by (unfold current_text; cbn [current_input set_latest_input_iu
          set_current_input]; by rewrite Hi).
  unfold current_text.
  cbn [current_input set_latest_input_iu set_current_input fst snd].
  rewrite Hi. eexists. split; [reflexivity|]. by cbn.
Qed.

(** C3: [current_text()] is the texts of the pending fragments, in the order
    they were added, with single spaces between them. With "Hello" and
    "world." pending it is "Hello world."; adding the two (neither of them
    committed) to a module with nothing pending starts exactly one
    synthesis, on that text, at the second ADD, be the two ADDs delivered in
    two update messages or in one. *)
Theorem current_text_joins_fragments
    (pending self : t) (hello world : TextIU.t) :
  current_input self = [] →
  TextIU.text hello = "Hello" → TextIU.text world = "world." →
  TextIU.committed hello = false → TextIU.committed world = false →
  current_text pending
    = joined_by_single_spaces (map TextIU.text (current_input pending)) ∧
  current_text (set_current_input [hello; world] self) = "Hello world." ∧
  (∃ s1 s2,
     process_update self [(hello, ADD)] = Ok (s1, []) ∧
     current_input s1 = [hello] ∧ current_text s1 = "Hello" ∧
     process_update s1 [(world, ADD)] = Ok (s2, ["Hello world."]) ∧
     _latest_text s2 = "Hello world." ∧ current_input s2 = []) ∧
  (∃ s2,
     process_update self [(hello, ADD); (world, ADD)]
       = Ok (s2, ["Hello world."]) ∧
     _latest_text s2 = "Hello world." ∧ current_input s2 = []).
Proof.
  intros Hin Hh Hw Hch Hcw.
  split; [apply join_spaces_spec|].
  split; [unfold current_text; cbn; by rewrite Hh, Hw|].
  assert (Ht1 : join " " (map TextIU.text ([] ++ [hello])) = "Hello")
    by (cbn [app map join]; by rewrite Hh).
  assert (Ht2 : join " " (map TextIU.text ([hello] ++ [world]))
                = "Hello world.")
    by (cbn [app map join]; by rewrite Hh, Hw).
  destruct (process_increment_ADD_quiet self [] hello Hch)
    as (s1 & Hs1 & Hi1 & _).
  { rewrite Hin, Ht1. vm_compute. reflexivity. }
  rewrite Hin in Hi1. cbn [app] in Hi1.
  destruct (process_increment_ADD_final s1 false [] world)
    as (s2 & Hs2 & Hi2 & _ & Hl2).
  { rewrite Hi1, Hcw, Ht2. vm_compute. reflexivity. }
  rewrite Hcw, Hi1, Ht2 in Hs2. rewrite Hi1, Ht2 in Hl2.
  cbn [app] in Hs2.
  split.
  - exists s1, s2. unfold process_update, process_loop.
    rewrite Hs1, Hs2. cbn [mbind result_bind Py.bind].
    unfold current_text. rewrite Hi1. cbn [map join]. by rewrite Hh.
  - exists s2. unfold process_update, process_loop.
    rewrite Hs1. cbn [mbind result_bind Py.bind]. by rewrite Hs2.
Qed.





(** ** The frame scheduler's tick *)

Lemma zeros_all_zero (n : Z) : Forall (eq x00) (zeros n).
Proof.
  unfold zeros. apply Forall_forall. intros b Hb.
  apply list_elem_of_In, repeat_spec in Hb. by symmetry.
Qed.

Lemma zeros_length (n : Z) : Z.of_nat (length (zeros n)) = Z.max 0 n.
Proof. unfold zeros. rewrite repeat_length. lia. Qed.

(** C4, as the code has it: a tick (the loop body, once its sleep has
    returned) on an empty buffer emits silence, all bytes zero, of
    [samplewidth * int(sample_rate * frame_duration)] bytes, the number of
    samples being truncated to a whole number, and leaves the module as it
    is; on a non-empty buffer it removes the front frame and emits its
    bytes. Either unit is grounded in the latest input unit and carries the
    sample rate and width of the module. *)
Theorem tick_emits_front_or_silence (self : t) :
  sleep (frame_duration self) = Ok tt →
  (audio_buffer self = [] →
   ∀ n, frame_samples self = Ok n →
     tick self =
       Ok (AudioIU.mk (latest_input_iu self) (zeros (samplewidth self * n)) 1
             (sample_rate self) (samplewidth self), None, self) ∧
     Forall (eq x00) (zeros (samplewidth self * n)) ∧
     Z.of_nat (length (zeros (samplewidth self * n)))
       = Z.max 0 (samplewidth self * n)) ∧
  (∀ f rest, audio_buffer self = f :: rest →
     tick self =
       Ok (AudioIU.mk (latest_input_iu self) (pcm f) 1 (sample_rate self)
             (samplewidth self), Some f, set_audio_buffer rest self)).
Proof.
  intros Hs. split.
  - intros Hb n Hn. split; [|split; [apply zeros_all_zero|apply zeros_length]].
    unfold tick. rewrite Hs, Hb. cbn [mbind result_bind Py.bind].
    rewrite Hn. reflexivity.
  - intros f rest Hb. unfold tick. rewrite Hs, Hb. reflexivity.
Qed.

(** With the default frame duration and the initial sample rate the two
    lengths agree: 22050 * 0.2 is 4410 samples, 8820 bytes. *)
Example default_silence_length :
  frame_samples (__init__ None true 0.2%float) = Ok 4410 ∧
  nominal_frame_bytes (__init__ None true 0.2%float) = Ok 8820%float.
Proof. split; vm_compute; reflexivity. Qed.

(** C4 as the specification words it fails when [sample_rate *
    frame_duration] is not whole: at 22050 Hz and 0.03 s the tick emits
    1322 zero bytes, and [sample_rate * frame_duration * sample_width_bytes]
    is 1323. *)
Lemma silence_length_counterexample :
  let self := __init__ None true 0.03%float in
  audio_buffer self = [] ∧
  ∃ iu, tick self = Ok (iu, None, self) ∧
    length (AudioIU.raw_audio iu) = 1322%nat ∧
    nominal_frame_bytes self = Ok 1323%float ∧
    float_of_int (Z.of_nat (length (AudioIU.raw_audio iu)))
      ≠ nominal_frame_bytes self.
Proof.
  cbn zeta. split; [reflexivity|]. eexists. split; [vm_compute; reflexivity|].
  split; [vm_compute; reflexivity|]. split; [vm_compute; reflexivity|].
  intros H.
  apply (f_equal (fun r => match r with
                           | Ok x => PrimFloat.eqb x 1323%float
                           | Raise _ => true
                           end)) in H.
  vm_compute in H. discriminate.
Qed.

(** ** Cutting the waveform into frames *)

Lemma slice_from (b : bytes) (i fb : Z) :
  0 ≤ i → 0 < fb →
  slice b i (i + fb) = take (Z.to_nat fb) (drop (Z.to_nat i) b).
Proof.
  intros Hi Hfb. unfold slice, slice_index.
  destruct (Z.ltb_spec i 0) as [?|_]; [lia|].
  destruct (Z.ltb_spec (i + fb) 0) as [?|_]; [lia|].
  destruct (Z.le_gt_cases i (Z.of_nat (length b))) as [Hle|Hgt].
  - rewrite (Z.min_l i) by lia.
    destruct (Z.le_gt_cases (i + fb) (Z.of_nat (length b))) as [Hle2|Hgt2].
    + rewrite Z.min_l by lia. f_equal. lia.
    + rewrite Z.min_r by lia. rewrite !take_ge; [done|..];
        rewrite length_drop; lia.
  - rewrite !Z.min_r by lia. rewrite Z.sub_diag. cbn [Z.to_nat take].
    rewrite (drop_ge b (Z.to_nat i)) by lia. by rewrite take_nil.
Qed.

(** The chunk cut at [i]: up to [frame_bytes] bytes of the waveform from
    offset [i], followed by as many zero bytes as are missing. *)
Lemma chunk_at_spec (new_audio : bytes) (frame_bytes i : Z) :
  0 ≤ i → 0 < frame_bytes →
  chunk_at new_audio frame_bytes i =
  take (Z.to_nat frame_bytes) (drop (Z.to_nat i) new_audio) ++
  repeat x00
    (Z.to_nat frame_bytes
     - length (take (Z.to_nat frame_bytes) (drop (Z.to_nat i) new_audio)))%nat.
Proof.
  intros Hi Hfb. unfold chunk_at. rewrite slice_from by done.
  set (c := take _ _).
  assert (Hc : (length c ≤ Z.to_nat frame_bytes)%nat)
    by (subst c; rewrite length_take; lia).
  destruct (Z.ltb_spec (Z.of_nat (length c)) frame_bytes) as [Hlt|Hge].
  - unfold ljust. do 2 f_equal. lia.
  - replace (Z.to_nat frame_bytes - length c)%nat with 0%nat by lia.
    cbn [repeat]. by rewrite app_nil_r.
Qed.

Lemma chunk_at_length (new_audio : bytes) (frame_bytes i : Z) :
  0 ≤ i → 0 < frame_bytes →
  Z.of_nat (length (chunk_at new_audio frame_bytes i)) = frame_bytes.
Proof.
  intros Hi Hfb. rewrite chunk_at_spec by done.
  rewrite length_app, repeat_length, length_take. lia.
Qed.

(** The indices of [range(0, stop, step)] are not negative, and there are
    some only when the step is positive. *)
Lemma range_from_zero (stop step : Z) (idxs : list Z) :
  0 ≤ stop → range 0 stop step = Ok idxs →
  Forall (fun i => 0 ≤ i ∧ 0 < step) idxs.
Proof.
  intros Hstop. unfold range, range_len.
  destruct (Z.eqb_spec step 0) as [|Hne]; [done|]. intros [= <-].
  destruct (Z.ltb_spec 0 step) as [Hpos|Hneg].
  - apply Forall_forall. intros i Hin.
    apply list_elem_of_In, in_map_iff in Hin as (k & <- & _). nia.
  - destruct (Z.ltb_spec stop 0) as [?|_]; [lia|]. cbn. constructor.
Qed.

Lemma frame_plan_spec (self : t) (new_audio : bytes) (n frame_bytes : Z)
    (idxs : list Z) :
  frame_samples self = Ok n →
  frame_plan self new_audio = Ok (frame_bytes, idxs) →
  frame_bytes = n * samplewidth self ∧
  Forall (fun i => 0 ≤ i ∧ 0 < frame_bytes) idxs.
Proof.
  intros Hn. unfold frame_plan. rewrite Hn. cbn [mbind result_bind Py.bind].
  destruct (range _ _ _) as [l|e] eqn:Hr; [|done]. intros [= <- <-].
  split; [done|]. eapply range_from_zero; [|exact Hr]. lia.
Qed.

(** ** Steps of the running program *)

Lemma set_audio_buffer_id (m : t) : set_audio_buffer (audio_buffer m) m = m.
Proof. by destruct m. Qed.

(** A step of a synthesis thread appends at most one frame, labelled with
    the thread, to the buffer and to the log, and touches no other thread. *)
Lemma step_synth_spec (s : Sys.t) (n : nat) :
  ∃ Y pcs w',
    Sys.step_synth s n =
      Sys.mk (set_audio_buffer (audio_buffer (Sys.module s) ++ Y) (Sys.module s))
        w' pcs (Sys.scheds s) (Sys.output s) (Sys.appended s ++ Y) ∧
    (∀ f, f ∈ Y → origin f = n) ∧
    (∀ n', n' ≠ n → pcs !! n' = Sys.synths s !! n').
Proof.
  assert (Hid : ∀ w pcs,
    Sys.mk (Sys.module s) w pcs (Sys.scheds s) (Sys.output s) (Sys.appended s)
    = Sys.mk (set_audio_buffer (audio_buffer (Sys.module s) ++ [])
                (Sys.module s))
        w pcs (Sys.scheds s) (Sys.output s) (Sys.appended s ++ [])).
  { intros. by rewrite !app_nil_r, set_audio_buffer_id. }
  assert (Hne : ∀ pc n', n' ≠ n →
            <[n := pc]> (Sys.synths s) !! n' = Sys.synths s !! n').
  { intros. by apply list_lookup_insert_ne. }
  assert (Hnil : ∀ f : Frame, f ∈ @nil Frame → origin f = n)
    by (intros f Hf; by apply elem_of_nil in Hf).
  unfold Sys.step_synth.
  destruct (Sys.synths s !! n) as [[text|na|na fb [|i rest]| |e]|] eqn:Hl.
  - destruct (getattr (tts (Sys.module s))) as [o|e].
    + destruct (CoquiTTS.synthesize o text (Sys.world s)) as [r w'].
      eexists [], _, _. split; [apply Hid|]. split; [done|apply Hne].
    + eexists [], _, _. split; [apply Hid|]. split; [done|apply Hne].
  - destruct (frame_plan (Sys.module s) na) as [[fb idxs]|e];
      (eexists [], _, _; split; [apply Hid|]; split; [done|apply Hne]).
  - eexists [], _, _. split; [apply Hid|]. split; [done|apply Hne].
  - eexists [_], _, _. split; [reflexivity|]. split; [|apply Hne].
    intros f Hf. apply list_elem_of_singleton in Hf. by subst f.
  - exists [], (Sys.synths s), (Sys.world s). split; [|done].
    rewrite <- Hid. by destruct s.
  - exists [], (Sys.synths s), (Sys.world s). split; [|done].
    rewrite <- Hid. by destruct s.
  - exists [], (Sys.synths s), (Sys.world s). split; [|done].
    rewrite <- Hid. by destruct s.
Qed.

Lemma planned_synths (n : nat) (na : bytes) (fb : Z) (s s' : Sys.t) :
  Sys.synths s' !! n = Sys.synths s !! n →
  Sys.planned n na fb s → Sys.planned n na fb s'.
Proof. unfold Sys.planned. by intros ->. Qed.

Lemma step_sched_synths (s : Sys.t) (k : nat) :
  Sys.synths (Sys.step_sched s k) = Sys.synths s ∧
  Sys.appended (Sys.step_sched s k) = Sys.appended s.
Proof.
  unfold Sys.step_sched.
  destruct (Sys.scheds s !! k) as [[| | |e]|]; try done.
  - by destruct (_tts_thread_active _).
  - by destruct (tick _) as [[[iu src] m']|e].
Qed.

Lemma step_update_synths (s : Sys.t) (um : UpdateMessage) :
  (∃ started, Sys.synths (Sys.step_update s um)
              = Sys.synths s ++ map Sys.Start started) ∧
  Sys.appended (Sys.step_update s um) = Sys.appended s.
Proof.
  unfold Sys.step_update.
  destruct (process_update _ _) as [[m' started]|e].
  - split; [by exists started|done].
  - split; [exists []; cbn; by rewrite app_nil_r|done].
Qed.

(** Once thread [n] has its plan, every step of the program keeps it, and
    what the step logs for thread [n] is the chunk cut at its offset. *)
Lemma planned_step (n : nat) (na : bytes) (fb : Z) (s : Sys.t)
    (e : Sys.event) :
  Sys.planned n na fb s →
  Sys.planned n na fb (Sys.step s e) ∧
  ∃ Y, Sys.appended (Sys.step s e) = Sys.appended s ++ Y ∧
    ∀ f, f ∈ Y → origin f = n →
      pcm f = chunk_at na fb (offset f) ∧ 0 ≤ offset f ∧ 0 < fb.
Proof.
  intros Hp.
  assert (Hnil : ∀ f : Frame, f ∈ @nil Frame → origin f = n →
            pcm f = chunk_at na fb (offset f) ∧ 0 ≤ offset f ∧ 0 < fb)
    by (intros f Hf; by apply elem_of_nil in Hf).
  destruct e as [um|n'|k| |]; cbn [Sys.step].
  - destruct (step_update_synths s um) as [[started Hs] Ha]. split.
    + eapply planned_synths; [|exact Hp]. rewrite Hs.
      unfold Sys.planned in Hp.
      destruct (Sys.synths s !! n) as [pc|] eqn:Hl; [|done].
      by apply lookup_app_l_Some.
    + exists []. by rewrite Ha, app_nil_r.
  - destruct (decide (n' = n)) as [->|Hne].
    + unfold Sys.planned in Hp. unfold Sys.step_synth.
      destruct (Sys.synths s !! n) as [[text|na'|na' fb' [|i rest]| |e]|]
        eqn:Hl; try done.
      * split; [|exists []; by rewrite app_nil_r].
        unfold Sys.planned. cbn [Sys.synths].
        rewrite list_lookup_insert_eq; [done|by eapply lookup_lt_Some].
      * destruct Hp as (-> & -> & Hall).
        apply Forall_cons in Hall as [[Hi Hfb] Hall]. split.
        -- unfold Sys.planned. cbn [Sys.synths].
           rewrite list_lookup_insert_eq; [done|by eapply lookup_lt_Some].
        -- eexists [_]. split; [reflexivity|]. intros f Hf _.
           apply list_elem_of_singleton in Hf. by subst f.
      * split; [by unfold Sys.planned; rewrite Hl|].
        exists []. by rewrite app_nil_r.
      * split; [by unfold Sys.planned; rewrite Hl|].
        exists []. by rewrite app_nil_r.
    + destruct (step_synth_spec s n') as (Y & pcs & w' & -> & Ho & Hpcs).
      split.
      * eapply planned_synths; [|exact Hp]. cbn [Sys.synths]. by apply Hpcs.
      * exists Y. split; [done|]. intros f Hf Hn. apply Ho in Hf. congruence.
  - destruct (step_sched_synths s k) as [Hs Ha]. split.
    + eapply planned_synths; [|exact Hp]. by rewrite Hs.
    + exists []. by rewrite Ha, app_nil_r.
  - split; [done|]. exists []. cbn. by rewrite app_nil_r.
  - split; [done|]. exists []. cbn. by rewrite app_nil_r.
Qed.

Lemma planned_run (n : nat) (na : bytes) (fb : Z) (es : list Sys.event) :
  ∀ s, Sys.planned n na fb s →
  ∃ Y, Sys.appended (Sys.run s es) = Sys.appended s ++ Y ∧
    ∀ f, f ∈ Y → origin f = n →
      pcm f = chunk_at na fb (offset f) ∧ 0 ≤ offset f ∧ 0 < fb.
Proof.
  induction es as [|e es IH]; intros s Hp.
  - exists []. cbn. rewrite app_nil_r. split; [done|].
    intros f Hf. by apply elem_of_nil in Hf.
  - destruct (planned_step n na fb s e Hp) as (Hp' & Y1 & Ha1 & HY1).
    destruct (IH _ Hp') as (Y2 & Ha2 & HY2).
    exists (Y1 ++ Y2). split.
    + cbn [Sys.run fold_left]. unfold Sys.run in Ha2.
      by rewrite Ha2, Ha1, app_assoc.
    + intros f Hf. apply elem_of_app in Hf as [Hf|Hf]; auto.
Qed.

(** C5, as the code has it: from the moment a synthesis thread computes its
    frame size, [int(sample_rate * frame_duration) * samplewidth] with the
    sample count truncated to a whole number, every frame it appends,
    whatever the other threads do in between, has exactly that many bytes:
    the bytes of the waveform from the frame's offset, followed by zeros
    when fewer than a frame are left. *)
Theorem synthesis_frames_have_frame_size
    (s : Sys.t) (n : nat) (new_audio : bytes) (k : Z) (es : list Sys.event) :
  Sys.synths s !! n = Some (Sys.Rendered new_audio) →
  frame_samples (Sys.module s) = Ok k →
  ∃ Y,
    Sys.appended (Sys.run (Sys.step s (Sys.Synth n)) es)
      = Sys.appended s ++ Y ∧
    ∀ f, f ∈ Y → origin f = n →
      Z.of_nat (length (pcm f)) = k * samplewidth (Sys.module s) ∧
      pcm f =
        take (Z.to_nat (k * samplewidth (Sys.module s)))
          (drop (Z.to_nat (offset f)) new_audio) ++
        repeat x00
          (Z.to_nat (k * samplewidth (Sys.module s))
           - length (take (Z.to_nat (k * samplewidth (Sys.module s)))
                       (drop (Z.to_nat (offset f)) new_audio)))%nat.
Proof.
  intros Hl Hk.
  set (fb := k * samplewidth (Sys.module s)).
  assert (Hp : Sys.planned n new_audio fb (Sys.step s (Sys.Synth n)) ∧
               Sys.appended (Sys.step s (Sys.Synth n)) = Sys.appended s).
  { cbn [Sys.step]. unfold Sys.step_synth. rewrite Hl.
    assert (Hlt : (n < length (Sys.synths s))%nat) by by eapply lookup_lt_Some.
    destruct (frame_plan _ _) as [[fb' idxs]|e] eqn:Hplan.
    - destruct (frame_plan_spec _ _ _ _ _ Hk Hplan) as [-> Hall].
      split; [|done]. unfold Sys.planned. cbn [Sys.synths].
      by rewrite list_lookup_insert_eq.
    - split; [|done]. unfold Sys.planned. cbn [Sys.synths].
      by rewrite list_lookup_insert_eq. }
  destruct Hp as [Hp Ha].
  destruct (planned_run n new_audio fb es _ Hp) as (Y & HY & Hgood).
  exists Y. split; [by rewrite HY, Ha|].
  intros f Hf Ho. destruct (Hgood f Hf Ho) as (Hpcm & Hoff & Hfb).
  rewrite Hpcm. split; [by apply chunk_at_length|by apply chunk_at_spec].
Qed.

(** ** Stopping the scheduler *)

Lemma process_loop_flag (um : UpdateMessage) :
  ∀ st st', process_loop st um = Ok st' →
  _tts_thread_active st'.1.1 = _tts_thread_active st.1.1.
Proof.
  induction um as [|[iu ut] um IH]; intros [[self final] started] st' H.
  - cbn in H. by injection H as <-.
  - cbn [process_loop] in H. rewrite process_increment_eq in H.
    destruct (configure_keeps self iu) as (s1 & Hc & _ & _ & Hf & _).
    rewrite Hc in H. cbn [Py.bind mbind result_bind] in H.
    apply IH in H. rewrite H. cbn [fst].
    destruct (dispatch_if_final_keeps (apply_update s1 final iu ut).1
                (apply_update s1 final iu ut).2 started)
      as (_ & _ & _ & -> & _).
    destruct (apply_update_keeps s1 final iu ut) as (_ & _ & _ & -> & _).
    exact Hf.
Qed.

Lemma process_update_flag (self self' : t) (um : UpdateMessage)
    (started : list string) :
  process_update self um = Ok (self', started) →
  _tts_thread_active self' = _tts_thread_active self.
Proof.
  unfold process_update. destruct um as [|m um]; [by intros [= <- <-]|].
  destruct (process_loop _ _) as [[[s' f'] st']|e] eqn:Hl; [|done].
  intros [= <- <-]. by apply process_loop_flag in Hl.
Qed.

Lemma tick_keeps (self self' : t) (iu : AudioIU.t) (src : option Frame) :
  tick self = Ok (iu, src, self') →
  _tts_thread_active self' = _tts_thread_active self.
Proof.
  unfold tick. destruct (sleep _) as [[]|e]; [|done].
  cbn [mbind result_bind Py.bind].
  destruct (audio_buffer self) as [|f rest].
  - destruct (frame_samples self) as [n|e]; [|done]. by intros [= <- <- <-].
  - by intros [= <- <- <-].
Qed.

(** Replacing one thread's position changes the count of threads inside the
    loop body by that thread alone. *)
Lemma in_body_insert (pcs : list Sys.sched_pc) (k : nat)
    (old new : Sys.sched_pc) :
  pcs !! k = Some old →
  (Sys.in_body (<[k := new]> pcs) + (if Sys.is_in_body old then 1 else 0)
   = Sys.in_body pcs + (if Sys.is_in_body new then 1 else 0))%nat.
Proof.
  unfold Sys.in_body. revert k.
  induction pcs as [|pc pcs IH]; intros [|k] H; try done.
  - injection H as ->. cbn.
    destruct (Sys.is_in_body old), (Sys.is_in_body new); cbn; lia.
  - cbn in H. specialize (IH k H). cbn.
    destruct (Sys.is_in_body pc); cbn; [f_equal|]; exact IH.
Qed.

(** After [shutdown], and as long as [prepare_run] is not called again, the
    flag stays down and a step emits a frame only by taking a scheduler
    thread out of its loop body. *)
Lemma stopped_step (s : Sys.t) (e : Sys.event) :
  _tts_thread_active (Sys.module s) = false →
  e ≠ Sys.PrepareRun →
  _tts_thread_active (Sys.module (Sys.step s e)) = false ∧
  ∃ X, Sys.output (Sys.step s e) = Sys.output s ++ X ∧
    (length X + Sys.in_body (Sys.scheds (Sys.step s e))
     ≤ Sys.in_body (Sys.scheds s))%nat.
Proof.
  intros Hflag Hne. destruct e as [um|n|k| |]; cbn [Sys.step]; [| | |done|].
  - unfold Sys.step_update.
    destruct (process_update _ _) as [[m' started]|err] eqn:Hu.
    + apply process_update_flag in Hu. cbn. split; [congruence|].
      exists []. by rewrite app_nil_r.
    + split; [done|]. exists []. by rewrite app_nil_r.
  - destruct (step_synth_spec s n) as (Y & pcs & w' & -> & _). cbn.
    split; [done|]. exists []. by rewrite app_nil_r.
  - unfold Sys.step_sched.
    destruct (Sys.scheds s !! k) as [[| | |err]|] eqn:Hk.
    + rewrite Hflag. cbn. split; [done|]. exists [].
      rewrite app_nil_r. split; [done|].
      pose proof (in_body_insert _ k _ Sys.Exited Hk) as Hc.
      unfold Sys.in_body in *. cbn in Hc |- *. lia.
    + destruct (tick _) as [[[iu src] m']|err] eqn:Ht.
      * apply tick_keeps in Ht. cbn. split; [congruence|].
        eexists [_]. split; [done|].
        pose proof (in_body_insert _ k _ Sys.AtTest Hk) as Hc.
        unfold Sys.in_body in *. cbn in Hc |- *. lia.
      * cbn. split; [done|]. exists []. rewrite app_nil_r. split; [done|].
        pose proof (in_body_insert _ k _ (Sys.Crashed err) Hk) as Hc.
        unfold Sys.in_body in *. cbn in Hc |- *. lia.
    + split; [done|]. exists []. rewrite app_nil_r. cbn. split; [done|lia].
    + split; [done|]. exists []. rewrite app_nil_r. cbn. split; [done|lia].
    + split; [done|]. exists []. rewrite app_nil_r. cbn. split; [done|lia].
  - cbn. split; [done|]. exists []. by rewrite app_nil_r.
Qed.

Lemma stopped_run (es : list Sys.event) :
  ∀ s, _tts_thread_active (Sys.module s) = false →
  Forall (fun e => e ≠ Sys.PrepareRun) es →
  _tts_thread_active (Sys.module (Sys.run s es)) = false ∧
  ∃ X, Sys.output (Sys.run s es) = Sys.output s ++ X ∧
    (length X + Sys.in_body (Sys.scheds (Sys.run s es))
     ≤ Sys.in_body (Sys.scheds s))%nat.
Proof.
  induction es as [|e es IH]; intros s Hflag Hall.
  - cbn. split; [done|]. exists []. rewrite app_nil_r. cbn. split; [done|lia].
  - apply Forall_cons in Hall as [He Hall].
    destruct (stopped_step s e Hflag He) as (Hflag1 & X1 & Ho1 & Hc1).
    destruct (IH _ Hflag1 Hall) as (Hflag2 & X2 & Ho2 & Hc2).
    cbn [Sys.run fold_left]. unfold Sys.run in *.
    split; [done|]. exists (X1 ++ X2).
    rewrite Ho2, Ho1, app_assoc, length_app. split; [done|lia].
Qed.

(** C7, as the code has it: [shutdown] only clears the flag, so it cannot
    fail and on a module that was never started it changes nothing. After
    it (and until [prepare_run] is called again) a scheduler thread that is
    at the test of its loop exits there without emitting; the frames still
    emitted are at most one for each scheduler thread that was already
    inside the loop body, asleep, when [shutdown] was called. *)
Theorem shutdown_stops_scheduler (s : Sys.t) (es : list Sys.event) :
  Forall (fun e => e ≠ Sys.PrepareRun) es →
  (∀ language dispatch_on_finish frame_duration,
     shutdown (__init__ language dispatch_on_finish frame_duration)
     = __init__ language dispatch_on_finish frame_duration) ∧
  _tts_thread_active (Sys.module (Sys.run (Sys.step s Sys.Shutdown) es))
    = false ∧
  (∃ X,
     Sys.output (Sys.run (Sys.step s Sys.Shutdown) es) = Sys.output s ++ X ∧
     (length X ≤ Sys.in_body (Sys.scheds s))%nat) ∧
  (∀ k, Sys.scheds (Sys.run (Sys.step s Sys.Shutdown) es) !! k
          = Some Sys.AtTest →
     Sys.step (Sys.run (Sys.step s Sys.Shutdown) es) (Sys.Sched k) =
     Sys.mk (Sys.module (Sys.run (Sys.step s Sys.Shutdown) es))
       (Sys.world (Sys.run (Sys.step s Sys.Shutdown) es))
       (Sys.synths (Sys.run (Sys.step s Sys.Shutdown) es))
       (<[k := Sys.Exited]>
          (Sys.scheds (Sys.run (Sys.step s Sys.Shutdown) es)))
       (Sys.output (Sys.run (Sys.step s Sys.Shutdown) es))
       (Sys.appended (Sys.run (Sys.step s Sys.Shutdown) es))).
Proof.
  intros Hall. split; [done|].
  destruct (stopped_run es (Sys.step s Sys.Shutdown) eq_refl Hall)
    as (Hflag & X & Ho & Hc).
  split; [exact Hflag|]. split.
  - exists X. split; [exact Ho|]. cbn [Sys.step Sys.scheds] in Hc. lia.
  - intros k Hk. set (s2 := Sys.run (Sys.step s Sys.Shutdown) es) in *.
    change (Sys.step s2 (Sys.Sched k)) with (Sys.step_sched s2 k).
    unfold Sys.step_sched. by rewrite Hk, Hflag.
Qed.

(** ** Dispatch and the frame buffer *)



Lemma tick_spec (self self' : t) (iu : AudioIU.t) (src : option Frame) :
  tick self = Ok (iu, src, self') →
  (audio_buffer self = [] ∧ src = None ∧ self' = self) ∨
  (∃ f rest, audio_buffer self = f :: rest ∧ src = Some f ∧
     AudioIU.raw_audio iu = pcm f ∧ self' = set_audio_buffer rest self).
Proof.
  unfold tick. destruct (sleep _) as [[]|e]; [|done].
  cbn [mbind result_bind Py.bind].
  destruct (audio_buffer self) as [|f rest].
  - destruct (frame_samples self) as [n|e]; [|done].
    intros [= <- <- <-]. by left.
  - intros [= <- <- <-]. right. by exists f, rest.
Qed.




(** ** Totality, and a synthesis thread running alone *)

(** [process_update] never raises. *)
Lemma process_loop_ok (um : UpdateMessage) :
  ∀ st, ∃ st', process_loop st um = Ok st'.
Proof.
  induction um as [|[iu ut] um IH]; intros [[self final] started].
  - by eexists.
  - cbn [process_loop]. rewrite process_increment_eq.
    destruct (configure_keeps self iu) as (s1 & -> & _).
    cbn [Py.bind mbind result_bind]. apply IH.
Qed.

Lemma process_update_ok (self : t) (um : UpdateMessage) :
  ∃ r, process_update self um = Ok r.
Proof.
  unfold process_update. destruct um as [|m um]; [by eexists|].
  destruct (process_loop_ok (m :: um) (self, false, []))
    as ([[s' f'] st'] & ->).
  by eexists.
Qed.

(** A synthesis thread that runs alone from its plan to the end of its loop
    appends the chunks of all its indices, in order. *)
Lemma appending_alone (n : nat) (na : bytes) (fb : Z) (idxs : list Z) :
  ∀ s, Sys.synths s !! n = Some (Sys.Appending na fb idxs) →
  Sys.appended (Sys.run s (repeat (Sys.Synth n) (length idxs)))
    = Sys.appended s ++ map (fun i => mkFrame n i (chunk_at na fb i)) idxs ∧
  audio_buffer (Sys.module (Sys.run s (repeat (Sys.Synth n) (length idxs))))
    = audio_buffer (Sys.module s)
      ++ map (fun i => mkFrame n i (chunk_at na fb i)) idxs.
Proof.
  induction idxs as [|i rest IH]; intros s Hl.
  - cbn. by rewrite !app_nil_r.
  - cbn [length repeat Sys.run fold_left Sys.step].
    unfold Sys.step_synth. rewrite Hl.
    match goal with
    | |- context [fold_left Sys.step _ ?s1] => destruct (IH s1) as [Ha Hb]
    end.
    { cbn [Sys.synths]. apply list_lookup_insert_eq.
      by eapply lookup_lt_Some. }
    unfold Sys.run in Ha, Hb. rewrite Ha, Hb. cbn. by rewrite <- !app_assoc.
Qed.

(** The same from the waveform on: the frames of [synthesized_frames]. *)
Lemma synthesize_alone (s : Sys.t) (n : nat) (na : bytes)
    (frames : list Frame) :
  Sys.synths s !! n = Some (Sys.Rendered na) →
  synthesized_frames (Sys.module s) n na = Ok frames →
  Sys.appended (Sys.run s (repeat (Sys.Synth n) (S (length frames))))
    = Sys.appended s ++ frames ∧
  audio_buffer
    (Sys.module (Sys.run s (repeat (Sys.Synth n) (S (length frames)))))
    = audio_buffer (Sys.module s) ++ frames.
Proof.
  intros Hl. unfold synthesized_frames.
  destruct (frame_plan (Sys.module s) na) as [[fb idxs]|e] eqn:Hplan; [|done].
  cbn [mbind result_bind Py.bind]. intros [= <-]. rewrite length_map.
  cbn [repeat Sys.run fold_left Sys.step]. unfold Sys.step_synth.
  rewrite Hl, Hplan.
  match goal with
  | |- context [fold_left Sys.step _ ?s1] =>
      destruct (appending_alone n na fb idxs s1) as [Ha Hb]
  end.
  { cbn [Sys.synths]. apply list_lookup_insert_eq. by eapply lookup_lt_Some. }
  unfold Sys.run in Ha, Hb. by rewrite Ha, Hb.
Qed.

End Properties.

(** * Concrete instances *)

Lemma unmapped_language_falls_back_witness :
  let self := MultilingualTTSModule.__init__ None true 0.2%float in
  let iu := TextIU.mk 1 "hei" (Some "sv") false in
  MultilingualTTSModule.LANGUAGE_MAPPING
    !! MultilingualTTSModule.resolve_language self iu = None ∧
  MultilingualTTSModule.select_model
    (MultilingualTTSModule.resolve_language self iu)
  = Ok (MULTILINGUAL_MODEL, Some "Brenda Stern").
Proof.
  cbn zeta. split; [vm_compute; reflexivity|].
  apply (@unmapped_language_falls_back demo_external
           (MultilingualTTSModule.__init__ None true 0.2%float) false []
           (TextIU.mk 1 "hei" (Some "sv") false) ADD).
  vm_compute. reflexivity.
Defined.

Lemma unknown_language_is_auto_witness :
  MultilingualTTSModule.LANGUAGE_MAPPING !! "sv" = None ∧
  MultilingualTTSModule.wished_language
    (MultilingualTTSModule.__init__ (Some "sv") true 0.2%float) = None.
Proof.
  split; [vm_compute; reflexivity|].
  apply (unknown_language_is_auto (Some "sv") true 0.2%float).
  intros l [= <-]. vm_compute. reflexivity.
Defined.

Lemma current_text_joins_fragments_witness :
  let self := MultilingualTTSModule.__init__ None true 0.2%float in
  let hello := TextIU.mk 1 "Hello" None false in
  let world := TextIU.mk 2 "world." None false in
  MultilingualTTSModule.current_input self = [] ∧
  ∃ s2,
    @MultilingualTTSModule.process_update demo_external self
      [(hello, ADD); (world, ADD)] = Ok (s2, ["Hello world."]) ∧
    MultilingualTTSModule._latest_text s2 = "Hello world." ∧
    MultilingualTTSModule.current_input s2 = [].
Proof.
  cbn zeta. split; [reflexivity|].
  destruct (@current_text_joins_fragments demo_external
              (MultilingualTTSModule.__init__ None true 0.2%float)
              (MultilingualTTSModule.__init__ None true 0.2%float)
              (TextIU.mk 1 "Hello" None false)
              (TextIU.mk 2 "world." None false)
              eq_refl eq_refl eq_refl eq_refl eq_refl)
    as (_ & _ & _ & H).
  exact H.
Defined.


Lemma tick_emits_front_or_silence_witness :
  let self := MultilingualTTSModule.__init__ None true 0.2%float in
  sleep (MultilingualTTSModule.frame_duration self) = Ok tt ∧
  MultilingualTTSModule.tick self =
    Ok (AudioIU.mk None (zeros 8820) 1 22050 2, None, self).
Proof.
  cbn zeta. split; [vm_compute; reflexivity|].
  destruct (tick_emits_front_or_silence
              (MultilingualTTSModule.__init__ None true 0.2%float))
    as [Hsilence _]; [vm_compute; reflexivity|].
  destruct (Hsilence eq_refl 4410) as [Htick _]; [vm_compute; reflexivity|].
  exact Htick.
Defined.

(** C5 as the specification words it fails in the same way as C4: at
    22050 Hz and 0.03 s the synthesis of "Hi." appends a first frame of 1322
    bytes, and [sample_rate * frame_duration * sample_width_bytes] is 1323. *)
Lemma frame_length_counterexample :
  let s0 := Sys.init (MultilingualTTSModule.__init__ None true 0.03%float)
              empty_world in
  let s := @Sys.run demo_external s0
             [Sys.Update [(TextIU.mk 1 "Hi." None false, ADD)];
              Sys.Synth 0; Sys.Synth 0; Sys.Synth 0] in
  ∃ f, Sys.appended s = [f] ∧ origin f = 0%nat ∧
    length (pcm f) = 1322%nat ∧
    nominal_frame_bytes (Sys.module s) = Ok 1323%float ∧
    float_of_int (Z.of_nat (length (pcm f)))
      ≠ nominal_frame_bytes (Sys.module s).
Proof.
  cbn zeta. eexists. split; [vm_compute; reflexivity|].
  split; [reflexivity|]. split; [vm_compute; reflexivity|].
  split; [vm_compute; reflexivity|].
  intros H.
  apply (f_equal (fun r => match r with
                           | Ok x => PrimFloat.eqb x 1323%float
                           | Raise _ => true
                           end)) in H.
  vm_compute in H. discriminate.
Qed.

Lemma synthesis_frames_have_frame_size_witness :
  let s0 := Sys.init (MultilingualTTSModule.__init__ None true 0.2%float)
              empty_world in
  let s := @Sys.run demo_external s0
             [Sys.Update [(TextIU.mk 1 "Hi." None false, ADD)]; Sys.Synth 0] in
  (∃ new_audio, Sys.synths s !! 0%nat = Some (Sys.Rendered new_audio)) ∧
  MultilingualTTSModule.frame_samples (Sys.module s) = Ok 4410 ∧
  ∃ Y,
    Sys.appended
      (@Sys.run demo_external (@Sys.step demo_external s (Sys.Synth 0))
         [Sys.Synth 0; Sys.Sched 0; Sys.Synth 0])
      = Sys.appended s ++ Y ∧
    ∀ f, f ∈ Y → origin f = 0%nat →
      Z.of_nat (length (pcm f))
        = 4410 * MultilingualTTSModule.samplewidth (Sys.module s).
Proof.
  cbn zeta.
  set (s := @Sys.run demo_external _ _).
  assert (H1 : Sys.synths s !! 0%nat
               = Some (Sys.Rendered
                         (repeat x52 44 ++
                          flat_map (fun _ => [xff; x3f])
                            (repeat 0.5%float 3000))))
    by (vm_compute; reflexivity).
  assert (H2 : MultilingualTTSModule.frame_samples (Sys.module s) = Ok 4410)
    by (vm_compute; reflexivity).
  split; [by eexists|]. split; [exact H2|].
  destruct (@synthesis_frames_have_frame_size demo_external s 0%nat _ 4410
              [Sys.Synth 0; Sys.Sched 0; Sys.Synth 0] H1 H2)
    as (Y & HY & Hgood).
  exists Y. split; [exact HY|].
  intros f Hf Ho. exact (proj1 (Hgood f Hf Ho)).
Defined.



(** C7 as the specification words it fails: the scheduler has passed the
    test of its loop and is asleep when [shutdown] is called; when it wakes
    up it emits one more frame, 8820 bytes of silence. *)
Lemma shutdown_counterexample :
  let s0 := Sys.init (MultilingualTTSModule.__init__ None true 0.2%float)
              empty_world in
  let stopped := @Sys.run demo_external s0
      [Sys.PrepareRun; Sys.Sched 0; Sys.Shutdown] in
  MultilingualTTSModule._tts_thread_active (Sys.module stopped) = false ∧
  Sys.output stopped = [] ∧
  ∃ e, Sys.output (@Sys.step demo_external stopped (Sys.Sched 0)) = [e] ∧
    Sys.source e = None ∧
    Z.of_nat (length (AudioIU.raw_audio (Sys.unit e))) = 8820.
Proof.
  cbn zeta. split; [vm_compute; reflexivity|].
  split; [vm_compute; reflexivity|].
  eexists. split; [vm_compute; reflexivity|].
  split; [reflexivity|]. vm_compute. reflexivity.
Qed.

Lemma shutdown_stops_scheduler_witness :
  let s0 := Sys.init (MultilingualTTSModule.__init__ None true 0.2%float)
              empty_world in
  let s := @Sys.run demo_external s0 [Sys.PrepareRun; Sys.Sched 0] in
  let es := [Sys.Sched 0; Sys.Sched 0; Sys.Sched 0] in
  Forall (fun e => e ≠ Sys.PrepareRun) es ∧
  MultilingualTTSModule._tts_thread_active
    (Sys.module (@Sys.run demo_external
                   (@Sys.step demo_external s Sys.Shutdown) es)) = false.
Proof.
  cbn zeta.
  assert (H : Forall (fun e => e ≠ Sys.PrepareRun)
                [Sys.Sched 0; Sys.Sched 0; Sys.Sched 0])
    by (repeat constructor; discriminate).
  split; [exact H|].
  apply (@shutdown_stops_scheduler demo_external _ _ H).
Defined.

(** * Further properties of the code *)

Section Extras.

Context `{E : External}.

Import MultilingualTTSModule.

(** ** What [process_update] keeps and what it sets *)

(** One loop turn: the fields it never writes, and the language, the
    [CoquiTTS] and the sample rate it installs for the increment. *)
Lemma process_increment_config (self self' : t) (final final' : bool)
    (started started' : list string) (iu : TextIU.t) (ut : UpdateType) :
  process_increment (self, final, started) (iu, ut)
    = Ok (self', final', started') →
  (wished_language self' = wished_language self ∧
   dispatch_on_finish self' = dispatch_on_finish self ∧
   frame_duration self' = frame_duration self ∧
   samplewidth self' = samplewidth self ∧
   _tts_thread_active self' = _tts_thread_active self) ∧
  language self' = Some (resolve_language self iu) ∧
  tts self' =
    Some (CoquiTTS.__init__
            (Some (dict_get LANGUAGE_MAPPING (resolve_language self iu)
                     (MULTILINGUAL_MODEL, Some "Brenda Stern")).1)
            (dict_get LANGUAGE_MAPPING (resolve_language self iu)
               (MULTILINGUAL_MODEL, Some "Brenda Stern")).2
            (Some (resolve_language self iu)) true "~/.cache/coqui_tts") ∧
  sample_rate self' =
    output_sample_rate
      (Some (dict_get LANGUAGE_MAPPING (resolve_language self iu)
               (MULTILINGUAL_MODEL, Some "Brenda Stern")).1).
Proof.
  rewrite process_increment_eq, configure_eq. cbn zeta. cbn [Py.bind].
  intros [= <- <- <-]. unfold dispatch_if_final.
  destruct ut; cbn [apply_update fst snd]; destruct (finalizes _ _);
    cbn; by repeat split.
Qed.

Lemma resolve_language_wished (self self' : t) (iu : TextIU.t) :
  wished_language self' = wished_language self →
  resolve_language self' iu = resolve_language self iu.
Proof. unfold resolve_language. by intros ->. Qed.



Lemma process_loop_last (pre : UpdateMessage) :
  ∀ self final started self' final' started' iu ut,
  process_loop (self, final, started) (pre ++ [(iu, ut)])
    = Ok (self', final', started') →
  language self' = Some (resolve_language self iu) ∧
  tts self' =
    Some (CoquiTTS.__init__
            (Some (dict_get LANGUAGE_MAPPING (resolve_language self iu)
                     (MULTILINGUAL_MODEL, Some "Brenda Stern")).1)
            (dict_get LANGUAGE_MAPPING (resolve_language self iu)
               (MULTILINGUAL_MODEL, Some "Brenda Stern")).2
            (Some (resolve_language self iu)) true "~/.cache/coqui_tts") ∧
  sample_rate self' =
    output_sample_rate
      (Some (dict_get LANGUAGE_MAPPING (resolve_language self iu)
               (MULTILINGUAL_MODEL, Some "Brenda Stern")).1).
Proof.
  induction pre as [|[iu0 ut0] pre IH];
    intros self final started self' final' started' iu ut H.
  - cbn [app process_loop] in H.
    destruct (process_increment _ _) as [[[s1 f1] st1]|e] eqn:H1; [|done].
    cbn in H. injection H as <- <- <-.
    by apply process_increment_config in H1 as [_ ?].
  - rewrite <- app_comm_cons in H. cbn [process_loop] in H.
    destruct (process_increment _ _) as [[[s1 f1] st1]|e] eqn:H1; [|done].
    cbn [mbind result_bind Py.bind] in H.
    apply process_increment_config in H1 as [(Hw & _) _].
    apply IH in H. by rewrite (resolve_language_wished _ _ _ Hw) in H.
Qed.

(** X2: every loop turn builds a new [CoquiTTS], dispatch or not, so after
    [process_update] the module's language, [tts] and sample rate are those
    of the last increment of the message: the language resolved for it, the
    model and voice the mapping gives for that language (the "all" entry
    when it has none), and that model's output sample rate. *)
Theorem process_update_installs_last_increment
    (self : t) (pre : UpdateMessage) (iu : TextIU.t) (ut : UpdateType) :
  ∃ self' started,
    process_update self (pre ++ [(iu, ut)]) = Ok (self', started) ∧
    language self' = Some (resolve_language self iu) ∧
    tts self' =
      Some (CoquiTTS.__init__
              (Some (dict_get LANGUAGE_MAPPING (resolve_language self iu)
                       (MULTILINGUAL_MODEL, Some "Brenda Stern")).1)
              (dict_get LANGUAGE_MAPPING (resolve_language self iu)
                 (MULTILINGUAL_MODEL, Some "Brenda Stern")).2
              (Some (resolve_language self iu)) true "~/.cache/coqui_tts") ∧
    sample_rate self' =
      output_sample_rate
        (Some (dict_get LANGUAGE_MAPPING (resolve_language self iu)
                 (MULTILINGUAL_MODEL, Some "Brenda Stern")).1).
Proof.
  destruct (process_update_ok self (pre ++ [(iu, ut)]))
    as [[self' started] H].
  exists self', started. split; [exact H|].
  unfold process_update in H.
  destruct (pre ++ [(iu, ut)]) as [|m um] eqn:Hum;
    [by destruct pre|].
  rewrite <- Hum in H.
  destruct (process_loop _ _) as [[[s' f'] st']|e] eqn:Hl; [|done].
  injection H as <- <-. by apply process_loop_last in Hl.
Qed.

(** ** The pending text between calls *)

Lemma process_increment_pending (st st' : t * bool * list string)
    (m : TextIU.t * UpdateType) :
  process_increment st m = Ok st' →
  finalizes false (current_text st'.1.1) = false.
Proof.
  destruct st as [[self final] started], m as [iu ut].
  rewrite process_increment_eq.
  destruct (configure_keeps self iu) as (s1 & -> & _).
  cbn [Py.bind]. intros [= <-]. cbn [fst snd]. unfold dispatch_if_final.
  destruct (finalizes (apply_update s1 final iu ut).2 _) eqn:Hf; cbn [fst].
  - reflexivity.
  - unfold finalizes in Hf |- *. by apply orb_false_iff in Hf as [_ ->].
Qed.

Lemma process_loop_pending (pre : UpdateMessage) :
  ∀ st st' m,
  process_loop st (pre ++ [m]) = Ok st' →
  finalizes false (current_text st'.1.1) = false.
Proof.
  induction pre as [|m0 pre IH]; intros st st' m H.
  - cbn [app process_loop] in H.
    destruct (process_increment _ _) as [s1|e] eqn:H1; [|done].
    cbn in H. injection H as <-. by eapply process_increment_pending.
  - rewrite <- app_comm_cons in H. cbn [process_loop] in H.
    destruct (process_increment _ _) as [s1|e] eqn:H1; [|done].
    cbn [mbind result_bind Py.bind] in H. by eapply IH.
Qed.

(** X3: when [process_update] returns from a message that is not empty, the
    pending text holds no ".", "!" or "?", whatever the module held before
    and whatever the message did (ADD, REVOKE or COMMIT): a loop turn either
    dispatches and resets the input, or it has just found no marker. *)
Theorem pending_text_has_no_terminal_marker
    (self : t) (pre : UpdateMessage) (m : TextIU.t * UpdateType) :
  ∃ self' started,
    process_update self (pre ++ [m]) = Ok (self', started) ∧
    ¬ has_char "." (current_text self') ∧
    ¬ has_char "!" (current_text self') ∧
    ¬ has_char "?" (current_text self').
Proof.
  destruct (process_update_ok self (pre ++ [m])) as [[self' started] H].
  exists self', started. split; [exact H|].
  apply finalizes_false_iff.
  unfold process_update in H.
  destruct (pre ++ [m]) as [|m0 um] eqn:Hum; [by destruct pre|].
  rewrite <- Hum in H.
  destruct (process_loop _ _) as [[[s' f'] st']|e] eqn:Hl; [|done].
  injection H as <- <-. by apply process_loop_pending in Hl.
Qed.

(** ** COMMIT, committed units and terminal markers *)

Lemma apply_update_text (self s1 : t) (final : bool) (iu : TextIU.t)
    (ut : UpdateType) :
  current_input s1 = current_input self →
  latest_input_iu s1 = latest_input_iu self →
  current_text (apply_update s1 final iu ut).1
    = current_text (apply_update self final iu ut).1 ∧
  (apply_update s1 final iu ut).2 = (apply_update self final iu ut).2 ∧
  latest_input_iu (apply_update s1 final iu ut).1
    = latest_input_iu (apply_update self final iu ut).1.
Proof.
  intros Hi Hl. unfold current_text. destruct ut; cbn; by rewrite ?Hi.
Qed.

(** A loop turn that finalizes, whatever the update: one thread on the text
    pending after the update, input and buffer emptied. *)
Lemma process_increment_final (self : t) (final : bool)
    (started : list string) (iu : TextIU.t) (ut : UpdateType) :
  finalizes (apply_update self final iu ut).2
    (current_text (apply_update self final iu ut).1) = true →
  ∃ self',
    process_increment (self, final, started) (iu, ut)
      = Ok (self', (apply_update self final iu ut).2,
            started ++ [current_text (apply_update self final iu ut).1]) ∧
    current_input self' = [] ∧ audio_buffer self' = [] ∧
    _latest_text self' = current_text (apply_update self final iu ut).1 ∧
    latest_input_iu self'
      = latest_input_iu (apply_update self final iu ut).1.
Proof.
  intros Hf. rewrite process_increment_eq.
  destruct (configure_keeps self iu) as (s1 & -> & Hi & _ & _ & _ & _ & Hl).
  cbn [Py.bind].
  destruct (apply_update_text self s1 final iu ut Hi Hl) as (Ht & Hfin & Hla).
  rewrite dispatch_if_final_true by (by rewrite Ht, Hfin).
  cbn [fst snd]. rewrite Ht, Hfin. eexists. split; [reflexivity|].
  cbn. by rewrite Hla.
Qed.

Lemma apply_update_true (self : t) (iu : TextIU.t) (ut : UpdateType) :
  (apply_update self true iu ut).2 = true.
Proof. destruct ut; cbn; [by destruct (TextIU.committed iu)|done..]. Qed.

(** Once [final] is set it stays set, and every further turn dispatches. *)
Lemma process_loop_after_final (um : UpdateMessage) :
  ∀ self started,
  ∃ self' ts,
    process_loop (self, true, started) um = Ok (self', true, started ++ ts) ∧
    length ts = length um ∧
    (um ≠ [] → current_input self' = []) ∧
    (current_input self = [] → Forall (fun m => is_ADD m = true) um →
       ts = map (fun m => TextIU.text m.1) um).
Proof.
  induction um as [|[iu ut] um IH]; intros self started.
  - exists self, []. cbn. by rewrite app_nil_r.
  - destruct (process_increment_final self true started iu ut)
      as (s1 & H1 & Hi1 & _).
    { by rewrite apply_update_true. }
    rewrite apply_update_true in H1.
    destruct (IH s1 (started ++ [current_text (apply_update self true iu ut).1]))
      as (s2 & ts & H2 & Hlen & Hin & Hadd).
    exists s2, (current_text (apply_update self true iu ut).1 :: ts).
    cbn [process_loop]. rewrite H1. cbn [mbind result_bind Py.bind].
    rewrite H2, <- app_assoc. split; [done|]. split; [cbn; by rewrite Hlen|].
    split.
    + intros _. destruct um as [|m um]; [|by apply Hin].
      cbn in H2. by injection H2 as <- _.
    + intros Hself Hall. apply Forall_cons in Hall as [Hm Hall].
      rewrite (Hadd Hi1 Hall). cbn [map]. f_equal.
      unfold is_ADD in Hm. cbn in Hm. destruct ut; try done.
      unfold current_text. cbn. by rewrite Hself.
Qed.

(** X4: a COMMIT dispatches the pending text as it is, the empty text when
    nothing is pending, and the text of the committing unit itself is not
    part of it. The local [final] is never reset inside the loop, so every
    later increment of the same message dispatches as well: a message of a
    COMMIT followed by [n] increments starts [1 + n] synthesis threads,
    and when these are ADDs each is dispatched on its own text alone. *)
Theorem commit_dispatches_and_final_sticks
    (self : t) (iu : TextIU.t) (rest : UpdateMessage) :
  ∃ self' ts,
    process_update self ((iu, COMMIT) :: rest)
      = Ok (self', current_text self :: ts) ∧
    length ts = length rest ∧
    current_input self' = [] ∧
    (Forall (fun m => is_ADD m = true) rest →
       ts = map (fun m => TextIU.text m.1) rest).
Proof.
  destruct (process_increment_final self false [] iu COMMIT)
    as (s1 & H1 & Hi1 & _); [done|].
  cbn [apply_update fst snd app] in H1.
  destruct (process_loop_after_final rest s1 [current_text self])
    as (s2 & ts & H2 & Hlen & Hin & Hadd).
  exists s2, ts. unfold process_update. cbn [process_loop].
  rewrite H1. cbn [mbind result_bind Py.bind]. rewrite H2.
  split; [done|]. split; [done|]. split; [|by apply Hadd].
  destruct rest as [|m rest]; [|by apply Hin].
  cbn in H2. by injection H2 as <- _.
Qed.

Lemma finalizes_marker (final : bool) (text : string) (c : ascii) :
  c ∈ ["."; "!"; "?"]%char → has_char c text → finalizes final text = true.
Proof.
  intros Hc Hin. apply contains_char in Hin.
  unfold finalizes, any, terminal_markers. cbn [existsb].
  rewrite !elem_of_cons, elem_of_nil in Hc.
  destruct Hc as [->|[->|[->|[]]]]; rewrite Hin;
    by rewrite ?orb_true_r.
Qed.

(** X5: an ADD is dispatched at once when the unit is flagged committed or
    when the accumulated text, the new unit included, holds a ".", "!" or
    "?" anywhere: one synthesis thread is started on the accumulated text,
    the buffer and the pending input are emptied, and the unit becomes the
    latest input unit. *)
Theorem add_dispatches_on_marker_or_committed (self : t) (iu : TextIU.t) :
  (TextIU.committed iu = true ∨
   ∃ c, c ∈ ["."; "!"; "?"]%char ∧
     has_char c
       (join " " (map TextIU.text (current_input self ++ [iu])))) →
  ∃ self',
    process_update self [(iu, ADD)]
      = Ok (self',
            [join " " (map TextIU.text (current_input self ++ [iu]))]) ∧
    current_input self' = [] ∧ audio_buffer self' = [] ∧
    _latest_text self'
      = join " " (map TextIU.text (current_input self ++ [iu])) ∧
    latest_input_iu self' = Some iu.
Proof.
  intros Hor.
  assert (Hf : finalizes (apply_update self false iu ADD).2
                 (current_text (apply_update self false iu ADD).1) = true).
  { cbn [apply_update fst snd]. destruct Hor as [->|(c & Hc & Hin)];
      [done|]. by eapply finalizes_marker. }
  destruct (process_increment_final self false [] iu ADD Hf)
    as (s1 & H1 & Hi & Hb & Hl & Hla).
  exists s1. unfold process_update. cbn [process_loop].
  rewrite H1. cbn [mbind result_bind Py.bind app].
  by repeat split.
Qed.

(** ** Bookkeeping: the latest text and the latest input unit *)

Lemma process_increment_bookkeeping (self self' : t) (final final' : bool)
    (started started' : list string) (iu : TextIU.t) (ut : UpdateType) :
  process_increment (self, final, started) (iu, ut)
    = Ok (self', final', started') →
  (∃ ts, started' = started ++ ts ∧
     _latest_text self' = default (_latest_text self) (last ts)) ∧
  latest_input_iu self'
    = (if is_ADD (iu, ut) then Some iu else latest_input_iu self).
Proof.
  rewrite process_increment_eq, configure_eq. cbn zeta. cbn [Py.bind].
  intros [= <- <- <-]. unfold dispatch_if_final.
  destruct (finalizes _ _); cbn [fst snd].
  - split; [eexists [_]; split; [reflexivity|by destruct ut]|by destruct ut].
  - split; [exists []; rewrite app_nil_r; split; [done|by destruct ut]|
            by destruct ut].
Qed.

Lemma process_loop_bookkeeping (um : UpdateMessage) :
  ∀ self final started self' final' started',
  process_loop (self, final, started) um = Ok (self', final', started') →
  (∃ ts, started' = started ++ ts ∧
     _latest_text self' = default (_latest_text self) (last ts)) ∧
  latest_input_iu self'
    = match last (List.filter is_ADD um) with
      | Some m => Some m.1
      | None => latest_input_iu self
      end.
Proof.
  induction um as [|[iu ut] um IH];
    intros self final started self' final' started' H.
  - cbn in H. injection H as <- <- <-. split; [|done].
    exists []. by rewrite app_nil_r.
  - cbn [process_loop] in H.
    destruct (process_increment _ _) as [[[s1 f1] st1]|e] eqn:H1; [|done].
    cbn [mbind result_bind Py.bind] in H.
    apply process_increment_bookkeeping in H1 as [(ts1 & -> & Ht1) Hl1].
    apply IH in H as [(ts2 & -> & Ht2) Hl2]. split.
    + exists (ts1 ++ ts2). rewrite app_assoc. split; [done|].
      rewrite Ht2, Ht1, last_app. by destruct (last ts2).
    + rewrite Hl2, Hl1. cbn [List.filter].
      destruct (is_ADD (iu, ut)); [|done].
      rewrite last_cons. by destruct (last (List.filter is_ADD um)).
Qed.

(** X6: after [process_update], [_latest_text] is the text of the last
    synthesis the call started, or what it was when the call started none;
    [latest_input_iu], the unit every emitted frame is attributed to, is the
    unit of the last ADD of the message, or what it was when the message has
    no ADD. A REVOKE of that unit does not take it back. *)
Theorem process_update_bookkeeping
    (self self' : t) (um : UpdateMessage) (started : list string) :
  process_update self um = Ok (self', started) →
  _latest_text self' = default (_latest_text self) (last started) ∧
  latest_input_iu self'
    = match last (List.filter is_ADD um) with
      | Some m => Some m.1
      | None => latest_input_iu self
      end.
Proof.
  unfold process_update. destruct um as [|m um]; [by intros [= <- <-]|].
  destruct (process_loop _ _) as [[[s' f'] st']|e] eqn:Hl; [|done].
  intros [= <- <-].
  apply process_loop_bookkeeping in Hl as [(ts & -> & Ht) Hla].
  by rewrite app_nil_l.
Qed.

(** ** A fixed language *)

Lemma LANGUAGE_MAPPING_no_empty_key : LANGUAGE_MAPPING !! "" = None.
Proof. vm_compute. reflexivity. Qed.

(** X7: on a module whose [wished_language] is a key of the mapping (what
    [__init__] sets for a mapped [language] argument), every increment is
    resolved to that language, whatever tag the increment carries, and
    after [process_update] the installed [CoquiTTS] is the one of that
    language's own entry. *)
Theorem fixed_language_overrides_tags
    (self : t) (l model : string) (speaker : option string) :
  wished_language self = Some l →
  LANGUAGE_MAPPING !! l = Some (model, speaker) →
  (∀ d fd, wished_language (__init__ (Some l) d fd) = Some l) ∧
  (∀ iu, resolve_language self iu = l) ∧
  ∀ pre iu ut, ∃ self' started,
    process_update self (pre ++ [(iu, ut)]) = Ok (self', started) ∧
    language self' = Some l ∧
    tts self' = Some (CoquiTTS.__init__ (Some model) speaker (Some l) true
                        "~/.cache/coqui_tts") ∧
    sample_rate self' = output_sample_rate (Some model).
Proof.
  intros Hw Hl.
  assert (Hne : String.eqb l "" = false).
  { apply String.eqb_neq. intros ->.
    by rewrite LANGUAGE_MAPPING_no_empty_key in Hl. }
  assert (Hres : ∀ iu, resolve_language self iu = l).
  { intros iu. unfold resolve_language. rewrite Hw. cbn. by rewrite Hne. }
  split; [|split; [exact Hres|]].
  - intros d fd. unfold __init__, dict_mem. by rewrite Hl.
  - intros pre iu ut.
    destruct (process_update_ok self (pre ++ [(iu, ut)]))
      as [[self' started] H].
    exists self', started. split; [exact H|].
    unfold process_update in H.
    destruct (pre ++ [(iu, ut)]) as [|m um] eqn:Hum; [by destruct pre|].
    rewrite <- Hum in H.
    destruct (process_loop _ _) as [[[s' f'] st']|e] eqn:Hloop; [|done].
    injection H as <- <-. apply process_loop_last in Hloop.
    rewrite Hres in Hloop. unfold dict_get in Hloop. by rewrite Hl in Hloop.
Qed.

(** ** More on the waveform cache *)

Lemma encode_utf8_append (a b : string) :
  encode_utf8 (a +:+ b) = encode_utf8 a ++ encode_utf8 b.
Proof.
  unfold encode_utf8, list_byte_of_string. by rewrite chars_append, map_app.
Qed.

(** X8: the cache key is the hash of the text's bytes followed by the model
    name's bytes and nothing else: speaker and language are not part of it,
    and neither is the place where the text ends. Two requests of
    instances with the same cache directory whose text-then-model-name
    strings are equal share one cache file, so the second is answered with
    the first one's audio without calling the model. *)
Theorem cache_key_is_text_then_model_name
    (m1 m2 : string) (sp1 sp2 : option string) (l1 l2 tmp_dir : string)
    (text1 text2 : string) (w : World) :
  text1 +:+ m1 = text2 +:+ m2 →
  ∃ data w1,
    CoquiTTS.synthesize
      (CoquiTTS.__init__ (Some m1) sp1 (Some l1) true tmp_dir) text1 w
      = (Ok data, w1) ∧
    CoquiTTS.synthesize
      (CoquiTTS.__init__ (Some m2) sp2 (Some l2) true tmp_dir) text2 w1
      = (Ok data, w1).
Proof.
  intros Heq.
  destruct (synthesize_returns m1 sp1 l1 tmp_dir text1 true w)
    as (data & w1 & H1).
  exists data, w1. split; [exact H1|].
  destruct (synthesize_fills_cache
              (CoquiTTS.__init__ (Some m1) sp1 (Some l1) true tmp_dir)
              text1 data w w1 eq_refl H1) as (p & Hp & Hfs & _).
  eapply synthesize_hit; [|reflexivity|exact Hfs].
  rewrite <- Hp. unfold CoquiTTS.get_cache_path. cbn.
  by rewrite <- !encode_utf8_append, Heq.
Qed.

(** X9: with caching off the model is called at every [synthesize], exactly
    once, also when a cache file for the text exists; the call returns the
    bytes just written and changes no file but the temporary one, which
    it creates and leaves behind holding those bytes. *)
Theorem synthesize_without_caching
    (m : string) (speaker : option string) (l tmp_dir text : string)
    (w : World) :
  ∃ data w',
    CoquiTTS.synthesize
      (CoquiTTS.__init__ (Some m) speaker (Some l) false tmp_dir) text w
      = (Ok data, w') ∧
    tts_calls w' = S (tts_calls w) ∧
    data = pcm16_file
             (tts_tts (tts_calls w) (Some m)
                (if bool_decide (Some m = Some MULTILINGUAL_MODEL)
                 then Some (speaker, l) else None) text)
             (output_sample_rate (Some m)) ∧
    fs w' !! mktemp (fs w) = Some data ∧
    ∀ p, p ≠ mktemp (fs w) → fs w' !! p = fs w !! p.
Proof.
  unfold CoquiTTS.synthesize, CoquiTTS.render. cbn.
  destruct (bool_decide (Some m = Some MULTILINGUAL_MODEL)); cbn;
    (eexists _, _; split; [reflexivity|]; cbn; split; [done|];
     split; [done|]; split; [apply lookup_insert_eq|];
     intros p Hp; by rewrite !lookup_insert_ne).
Qed.

(** X10: with caching on and no file under the cache path, [synthesize]
    calls the model exactly once and returns the bytes written; afterwards
    both the cache path and the temporary file hold those bytes (the
    temporary file is never removed) and no other file has changed. *)
Theorem synthesize_cache_miss
    (m : string) (speaker : option string) (l tmp_dir text p : string)
    (w : World) :
  CoquiTTS.get_cache_path
    (CoquiTTS.__init__ (Some m) speaker (Some l) true tmp_dir) text = Ok p →
  fs w !! p = None →
  ∃ data w',
    CoquiTTS.synthesize
      (CoquiTTS.__init__ (Some m) speaker (Some l) true tmp_dir) text w
      = (Ok data, w') ∧
    tts_calls w' = S (tts_calls w) ∧
    fs w' !! p = Some data ∧
    fs w' !! mktemp (fs w) = Some data ∧
    ∀ q, q ≠ p → q ≠ mktemp (fs w) → fs w' !! q = fs w !! q.
Proof.
  intros Hp Hfs. unfold CoquiTTS.synthesize. rewrite Hp. cbn.
  rewrite Hfs. unfold CoquiTTS.render. cbn.
  destruct (bool_decide (Some m = Some MULTILINGUAL_MODEL)); cbn;
    (eexists _, _; split; [reflexivity|]; cbn; split; [done|];
     split; [apply lookup_insert_eq|]; split;
     [destruct (decide (p = mktemp (fs w))) as [->|Hne];
        [apply lookup_insert_eq|
         rewrite lookup_insert_ne by done; apply lookup_insert_eq]|];
     intros q Hq1 Hq2; by rewrite !lookup_insert_ne).
Qed.

(** ** The frames of a waveform, put together again *)

Lemma chunks_concat (n : nat) :
  (0 < n)%nat → ∀ (K : nat) (l : bytes), (length l ≤ K * n)%nat →
  concat (map (fun j => take n (drop (j * n) l) ++
                        repeat x00 (n - length (take n (drop (j * n) l))))
            (seq 0 K))
  = l ++ repeat x00 (K * n - length l).
Proof.
  intros Hn K. induction K as [|K IH]; intros l Hl.
  - destruct l; [done|cbn in Hl; lia].
  - cbn [seq map concat]. rewrite <- seq_shift, map_map.
    rewrite (map_ext _ (fun j => take n (drop (j * n) (drop n l)) ++
               repeat x00 (n - length (take n (drop (j * n) (drop n l))))));
      [|intros j; rewrite drop_drop; do 3 f_equal; lia].
    rewrite IH by (rewrite length_drop; lia).
    cbn [Nat.mul]. change (drop 0 l) with l.
    rewrite length_drop, length_take.
    destruct (Nat.le_gt_cases n (length l)) as [Hle|Hgt].
    + replace (n - n `min` length l)%nat with 0%nat by lia. cbn [repeat].
      rewrite app_nil_r, app_assoc, take_drop. f_equal. f_equal. lia.
    + rewrite take_ge, drop_ge by lia. cbn [app length].
      rewrite <- app_assoc, <- repeat_app. do 2 f_equal. lia.
Qed.

Lemma range_len_covers (len fb : Z) :
  0 ≤ len → 0 < fb →
  0 ≤ range_len 0 len fb * fb - len < fb ∧ 0 ≤ range_len 0 len fb.
Proof.
  intros Hlen Hfb. unfold range_len.
  destruct (Z.ltb_spec 0 fb) as [_|?]; [|lia].
  destruct (Z.ltb_spec 0 len) as [Hpos|?]; [|lia].
  rewrite Z.sub_0_r.
  pose proof (Z.div_mod (len - 1) fb ltac:(lia)) as Hdm.
  pose proof (Z.mod_pos_bound (len - 1) fb Hfb) as Hmod.
  pose proof (Z.div_pos (len - 1) fb ltac:(lia) Hfb) as Hq.
  nia.
Qed.

(** X11: cut with a positive frame size, the frames of a waveform put end to
    end are the waveform itself followed by fewer than one frame of zero
    bytes: no byte is lost, repeated or reordered, only the last frame is
    padded, and the number of frames is the length divided by the frame
    size, rounded up (none for an empty waveform). *)
Theorem frames_concatenate_to_waveform
    (self : t) (gen : nat) (new_audio : bytes) (n : Z) :
  frame_samples self = Ok n →
  0 < n * samplewidth self →
  ∃ frames pad,
    synthesized_frames self gen new_audio = Ok frames ∧
    concat (map pcm frames) = new_audio ++ zeros pad ∧
    0 ≤ pad < n * samplewidth self ∧
    Z.of_nat (length frames) * (n * samplewidth self)
      = Z.of_nat (length new_audio) + pad.
Proof.
  intros Hn Hfb. set (fb := n * samplewidth self) in *.
  set (len := Z.of_nat (length new_audio)).
  destruct (range_len_covers len fb ltac:(lia) Hfb) as [Hpad HK].
  set (K := Z.to_nat (range_len 0 len fb)).
  exists (map (fun i => mkFrame gen i (chunk_at new_audio fb i))
            (map (fun k => 0 + Z.of_nat k * fb) (seq 0 K))),
         (range_len 0 len fb * fb - len).
  split; [|split; [|split]].
  - unfold synthesized_frames, frame_plan. rewrite Hn.
    cbn [mbind result_bind Py.bind]. fold fb. fold len. unfold range.
    destruct (Z.eqb_spec fb 0) as [?|_]; [lia|]. reflexivity.
  - rewrite !map_map. cbn [pcm].
    rewrite (map_ext _ (fun j =>
               take (Z.to_nat fb) (drop (j * Z.to_nat fb) new_audio) ++
               repeat x00 (Z.to_nat fb - length
                 (take (Z.to_nat fb) (drop (j * Z.to_nat fb) new_audio))))).
    + rewrite chunks_concat by (subst K len; nia).
      unfold zeros. do 2 f_equal. subst K len. nia.
    + intros j. rewrite chunk_at_spec by nia.
      replace (Z.to_nat (0 + Z.of_nat j * fb)) with (j * Z.to_nat fb)%nat
        by nia. reflexivity.
  - exact Hpad.
  - rewrite !length_map, length_seq. subst K. lia.
Qed.

(** ** A frame size of zero *)

(** X12: when [int(sample_rate * frame_duration) * samplewidth] is zero (a
    frame duration shorter than one sample), [range] raises ValueError in
    every synthesis thread as soon as it has its waveform, an empty one
    included: the thread dies, nothing is appended and the utterance is
    never heard, while the scheduler goes on emitting frames of no bytes. *)
Theorem zero_frame_size_kills_synthesis
    (s : Sys.t) (k : nat) (new_audio : bytes) (n : Z) :
  frame_samples (Sys.module s) = Ok n →
  n * samplewidth (Sys.module s) = 0 →
  Sys.synths s !! k = Some (Sys.Rendered new_audio) →
  Sys.step s (Sys.Synth k) =
    Sys.mk (Sys.module s) (Sys.world s)
      (<[k := Sys.Died ValueError]> (Sys.synths s))
      (Sys.scheds s) (Sys.output s) (Sys.appended s) ∧
  (sleep (frame_duration (Sys.module s)) = Ok tt →
   audio_buffer (Sys.module s) = [] →
   tick (Sys.module s) =
     Ok (AudioIU.mk (latest_input_iu (Sys.module s)) [] 1
           (sample_rate (Sys.module s)) (samplewidth (Sys.module s)),
         None, Sys.module s)).
Proof.
  intros Hn Hz Hl. split.
  - cbn [Sys.step]. unfold Sys.step_synth. rewrite Hl.
    unfold frame_plan. rewrite Hn. cbn [mbind result_bind Py.bind].
    rewrite Hz. reflexivity.
  - intros Hs Hb. unfold tick. rewrite Hs, Hb.
    cbn [mbind result_bind Py.bind]. rewrite Hn.
    cbn [mbind result_bind Py.bind].
    replace (samplewidth (Sys.module s) * n) with 0 by lia. reflexivity.
Qed.

(** ** Draining the buffer *)

Lemma drain_run (k : nat) (frames : list Frame) :
  ∀ s : Sys.t,
  Sys.scheds s !! k = Some Sys.AtTest →
  _tts_thread_active (Sys.module s) = true →
  sleep (frame_duration (Sys.module s)) = Ok tt →
  audio_buffer (Sys.module s) = frames →
  Sys.run s (flat_map (fun _ => [Sys.Sched k; Sys.Sched k]) frames) =
    Sys.mk (set_audio_buffer [] (Sys.module s)) (Sys.world s) (Sys.synths s)
      (Sys.scheds s)
      (Sys.output s ++ map (Sys.emitted_frame (Sys.module s)) frames)
      (Sys.appended s).
Proof.
  induction frames as [|f rest IH]; intros s Hk Hflag Hsleep Hbuf.
  - cbn. rewrite <- Hbuf, set_audio_buffer_id, app_nil_r. by destruct s.
  - cbn [flat_map app Sys.run fold_left Sys.step].
    assert (Hlt : (k < length (Sys.scheds s))%nat) by by eapply lookup_lt_Some.
    unfold Sys.step_sched at 2. rewrite Hk, Hflag.
    unfold Sys.step_sched. cbn [Sys.scheds Sys.module].
    rewrite list_lookup_insert_eq by done.
    unfold tick. rewrite Hsleep, Hbuf. cbn [mbind result_bind Py.bind].
    cbn [Sys.world Sys.synths Sys.output Sys.appended].
    rewrite list_insert_insert_eq, (list_insert_id _ _ _ Hk).
    match goal with
    | |- fold_left Sys.step _ ?s1 = _ =>
        pose proof (IH s1 Hk Hflag Hsleep eq_refl) as Hrun
    end.
    unfold Sys.run in Hrun. rewrite Hrun. cbn. by rewrite <- app_assoc.
Qed.

(** X13: a scheduler thread at its loop test, with the run flag up and a
    valid frame duration, emits the frames of the buffer one per tick in the
    order they were queued, each with its own bytes, grounded in the latest
    input unit and labelled with the module's current sample rate and
    width; after as many ticks as there are frames the buffer is empty and
    the thread is back at its test. *)
Theorem scheduler_drains_in_order
    (s : Sys.t) (k : nat) (frames : list Frame) :
  Sys.scheds s !! k = Some Sys.AtTest →
  _tts_thread_active (Sys.module s) = true →
  sleep (frame_duration (Sys.module s)) = Ok tt →
  audio_buffer (Sys.module s) = frames →
  Sys.run s (flat_map (fun _ => [Sys.Sched k; Sys.Sched k]) frames) =
    Sys.mk (set_audio_buffer [] (Sys.module s)) (Sys.world s) (Sys.synths s)
      (Sys.scheds s)
      (Sys.output s ++ map (Sys.emitted_frame (Sys.module s)) frames)
      (Sys.appended s).
Proof. apply drain_run. Qed.

(** ** Which [CoquiTTS] a synthesis thread uses *)

(** X14: a synthesis thread reads [self.tts] when it runs, not when it is
    started. If more increments are processed before a started thread calls
    [synthesize], its text is synthesized by the [CoquiTTS] of the last of
    these increments: that increment's language, model and voice, and the
    cache entry of that model. *)
Theorem synthesis_uses_the_latest_tts
    (s : Sys.t) (n : nat) (text : string) (pre : UpdateMessage)
    (iu : TextIU.t) (ut : UpdateType) :
  Sys.synths s !! n = Some (Sys.Start text) →
  ∃ m' started,
    process_update (Sys.module s) (pre ++ [(iu, ut)]) = Ok (m', started) ∧
    Sys.run s [Sys.Update (pre ++ [(iu, ut)]); Sys.Synth n] =
      let o := CoquiTTS.__init__
                 (Some (dict_get LANGUAGE_MAPPING
                          (resolve_language (Sys.module s) iu)
                          (MULTILINGUAL_MODEL, Some "Brenda Stern")).1)
                 (dict_get LANGUAGE_MAPPING
                    (resolve_language (Sys.module s) iu)
                    (MULTILINGUAL_MODEL, Some "Brenda Stern")).2
                 (Some (resolve_language (Sys.module s) iu)) true
                 "~/.cache/coqui_tts" in
      Sys.mk m' (CoquiTTS.synthesize o text (Sys.world s)).2
        (<[n := match (CoquiTTS.synthesize o text (Sys.world s)).1 with
                | Ok new_audio => Sys.Rendered new_audio
                | Raise e => Sys.Died e
                end]> (Sys.synths s ++ map Sys.Start started))
        (Sys.scheds s) (Sys.output s) (Sys.appended s).
Proof.
  intros Hl.
  destruct (process_update_ok (Sys.module s) (pre ++ [(iu, ut)]))
    as [[m' started] H].
  exists m', started. split; [exact H|].
  assert (Htts : tts m' = Some (CoquiTTS.__init__
            (Some (dict_get LANGUAGE_MAPPING
                     (resolve_language (Sys.module s) iu)
                     (MULTILINGUAL_MODEL, Some "Brenda Stern")).1)
            (dict_get LANGUAGE_MAPPING
               (resolve_language (Sys.module s) iu)
               (MULTILINGUAL_MODEL, Some "Brenda Stern")).2
            (Some (resolve_language (Sys.module s) iu)) true
            "~/.cache/coqui_tts")).
  { pose proof H as H'. unfold process_update in H'.
    destruct (pre ++ [(iu, ut)]) as [|m um] eqn:Hum; [by destruct pre|].
    rewrite <- Hum in H'.
    destruct (process_loop _ _) as [[[s' f'] st']|e] eqn:Hloop; [|done].
    injection H' as <- <-. by apply process_loop_last in Hloop as (_ & ? & _). }
  cbn [Sys.run fold_left Sys.step]. unfold Sys.step_update. rewrite H.
  unfold Sys.step_synth. cbn [Sys.synths Sys.module Sys.world].
  rewrite (lookup_app_l_Some _ _ _ _ Hl), Htts. cbn [getattr].
  by destruct (CoquiTTS.synthesize _ _ _) as [[a|e] w'].
Qed.

(** ** How often the model is called *)

Lemma synthesize_calls (o : CoquiTTS.t) (text : string) (w : World) :
  (tts_calls (CoquiTTS.synthesize o text w).2 ≤ S (tts_calls w))%nat.
Proof.
  unfold CoquiTTS.synthesize.
  destruct (CoquiTTS.get_cache_path o text) as [p|e]; [|cbn; lia].
  destruct (getattr (CoquiTTS.caching o)) as [c|e]; [|cbn; lia].
  destruct (if c then _ else _) as [data|]; [cbn; lia|].
  unfold CoquiTTS.render.
  destruct (_ ← getattr (CoquiTTS.model_name o); _) as [[h args]|e];
    [|cbn; lia].
  destruct (getattr (CoquiTTS.sample_rate o)) as [sr|e]; [|cbn; lia].
  destruct c; cbn; lia.
Qed.

Lemma pending_starts_insert (pcs : list Sys.synth_pc) (n : nat)
    (old new : Sys.synth_pc) :
  pcs !! n = Some old →
  (Sys.pending_starts (<[n := new]> pcs)
   + (if Sys.is_start old then 1 else 0)
   = Sys.pending_starts pcs + (if Sys.is_start new then 1 else 0))%nat.
Proof.
  unfold Sys.pending_starts. revert n.
  induction pcs as [|pc pcs IH]; intros [|n] H; try done.
  - injection H as ->. cbn.
    destruct (Sys.is_start old), (Sys.is_start new); cbn; lia.
  - cbn in H. specialize (IH n H). cbn.
    destruct (Sys.is_start pc); cbn; [f_equal|]; exact IH.
Qed.

Lemma pending_starts_app (pcs : list Sys.synth_pc) (started : list string) :
  Sys.pending_starts (pcs ++ map Sys.Start started)
  = (Sys.pending_starts pcs + length started)%nat.
Proof.
  unfold Sys.pending_starts. rewrite List.filter_app, length_app. f_equal.
  induction started as [|t ts IH]; [done|]. cbn. by rewrite IH.
Qed.

Lemma calls_step (s : Sys.t) (e : Sys.event) :
  (length (Sys.synths s) ≤ length (Sys.synths (Sys.step s e)))%nat ∧
  (tts_calls (Sys.world (Sys.step s e))
   + Sys.pending_starts (Sys.synths (Sys.step s e))
   + length (Sys.synths s)
   ≤ tts_calls (Sys.world s) + Sys.pending_starts (Sys.synths s)
     + length (Sys.synths (Sys.step s e)))%nat.
Proof.
  destruct e as [um|n|k| |]; cbn [Sys.step].
  - unfold Sys.step_update.
    destruct (process_update _ _) as [[m' started]|err]; [|lia].
    cbn [Sys.synths Sys.world].
    rewrite pending_starts_app, length_app, length_map. lia.
  - unfold Sys.step_synth.
    destruct (Sys.synths s !! n) as [[text|na|na fb [|i rest]| |err]|] eqn:Hl;
      try lia; cbn [Sys.synths Sys.world].
    + destruct (getattr (tts (Sys.module s))) as [o|err].
      * pose proof (synthesize_calls o text (Sys.world s)) as Hc.
        destruct (CoquiTTS.synthesize o text (Sys.world s)) as [r w'].
        cbn [snd] in Hc. cbn [Sys.synths Sys.world].
        rewrite length_insert.
        pose proof (pending_starts_insert _ n _
                      (match r with
                       | Ok new_audio => Sys.Rendered new_audio
                       | Raise e => Sys.Died e
                       end) Hl) as Hp.
        destruct r; cbn in Hp; lia.
      * cbn [Sys.synths Sys.world]. rewrite length_insert.
        pose proof (pending_starts_insert _ n _ (Sys.Died err) Hl) as Hp.
        cbn in Hp. lia.
    + destruct (frame_plan _ _) as [[fb idxs]|err];
        cbn [Sys.synths Sys.world]; rewrite length_insert.
      * pose proof (pending_starts_insert _ n _
                      (Sys.Appending na fb idxs) Hl) as Hp. cbn in Hp. lia.
      * pose proof (pending_starts_insert _ n _ (Sys.Died err) Hl) as Hp.
        cbn in Hp. lia.
    + rewrite length_insert.
      pose proof (pending_starts_insert _ n _ Sys.Returned Hl) as Hp.
      cbn in Hp. lia.
    + rewrite length_insert.
      pose proof (pending_starts_insert _ n _
                    (Sys.Appending na fb rest) Hl) as Hp. cbn in Hp. lia.
  - unfold Sys.step_sched.
    destruct (Sys.scheds s !! k) as [[| | |err]|]; try lia.
    + destruct (_tts_thread_active _); cbn [Sys.synths Sys.world]; lia.
    + destruct (tick _) as [[[iu src] m']|err];
        cbn [Sys.synths Sys.world]; lia.
  - cbn [Sys.synths Sys.world]. lia.
  - cbn [Sys.synths Sys.world]. lia.
Qed.

(** X15: the model is called at most once for each synthesis thread, and
    only by a thread at its start: over any run, the calls made plus the
    threads that have not called yet grow by no more than the number of
    threads started. From a fresh program the number of model calls never
    exceeds the number of dispatches. *)
Theorem model_called_at_most_once_per_dispatch (es : list Sys.event) :
  ∀ s : Sys.t,
  (length (Sys.synths s) ≤ length (Sys.synths (Sys.run s es)))%nat ∧
  (tts_calls (Sys.world (Sys.run s es))
   + Sys.pending_starts (Sys.synths (Sys.run s es))
   + length (Sys.synths s)
   ≤ tts_calls (Sys.world s) + Sys.pending_starts (Sys.synths s)
     + length (Sys.synths (Sys.run s es)))%nat.
Proof.
  induction es as [|e es IH]; intros s; [cbn; lia|].
  cbn [Sys.run fold_left].
  destruct (calls_step s e) as [H1 H2].
  destruct (IH (Sys.step s e)) as [H3 H4]. unfold Sys.run in *. lia.
Qed.

(** ** Restarting the scheduler *)

(** X16: [prepare_run] neither stops nor reuses a scheduler thread that
    exists. When it is called after [shutdown] before the old thread has
    reached its loop test, the flag is up again when that thread tests it:
    the old thread goes on and a second one runs beside it, both entering
    the loop body and emitting a frame per period each. *)
Theorem restart_leaves_two_schedulers (s : Sys.t) (k : nat) :
  Sys.scheds s !! k = Some Sys.AtTest →
  Sys.scheds (Sys.run s [Sys.Shutdown; Sys.PrepareRun])
    = Sys.scheds s ++ [Sys.AtTest] ∧
  _tts_thread_active
    (Sys.module (Sys.run s [Sys.Shutdown; Sys.PrepareRun])) = true ∧
  Sys.scheds
    (Sys.run s [Sys.Shutdown; Sys.PrepareRun; Sys.Sched k;
                Sys.Sched (length (Sys.scheds s))])
    = <[k := Sys.InBody]> (Sys.scheds s) ++ [Sys.InBody].
Proof.
  intros Hk.
  assert (Hlt : (k < length (Sys.scheds s))%nat) by by eapply lookup_lt_Some.
  split; [done|]. split; [done|].
  cbn [Sys.run fold_left Sys.step]. unfold Sys.step_sched.
  cbn [Sys.scheds Sys.module prepare_run shutdown set__tts_thread_active
       set_audio_pointer set_audio_buffer _tts_thread_active].
  rewrite (lookup_app_l_Some _ _ _ _ Hk).
  cbn [Sys.scheds Sys.module _tts_thread_active].
  rewrite insert_app_l by done.
  rewrite lookup_app_r by (rewrite length_insert; lia).
  rewrite length_insert, Nat.sub_diag. cbn [lookup list_lookup].
  cbn [Sys.scheds]. rewrite insert_app_r_alt by (rewrite length_insert; lia).
  by rewrite length_insert, Nat.sub_diag.
Qed.

(** ** A parameter without effect *)

Lemma process_increment_dispatch_on_finish (b : bool) (self : t)
    (final : bool) (started : list string) (m : TextIU.t * UpdateType) :
  process_increment (set_dispatch_on_finish b self, final, started) m =
  match process_increment (self, final, started) m with
  | Ok (self', final', started') =>
      Ok (set_dispatch_on_finish b self', final', started')
  | Raise e => Raise e
  end.
Proof.
  destruct m as [iu ut].
  rewrite !process_increment_eq, !configure_eq. cbn zeta. cbn [Py.bind].
  unfold dispatch_if_final, current_text.
  destruct ut; cbn [apply_update fst snd current_input set_current_input
    set_latest_input_iu set_sample_rate set_tts set_language
    set_dispatch_on_finish];
    destruct (finalizes _ _); reflexivity.
Qed.

Lemma process_loop_dispatch_on_finish (b : bool) (um : UpdateMessage) :
  ∀ self final started,
  process_loop (set_dispatch_on_finish b self, final, started) um =
  match process_loop (self, final, started) um with
  | Ok (self', final', started') =>
      Ok (set_dispatch_on_finish b self', final', started')
  | Raise e => Raise e
  end.
Proof.
  induction um as [|m um IH]; intros self final started; [done|].
  cbn [process_loop]. rewrite process_increment_dispatch_on_finish.
  destruct (process_increment (self, final, started) m)
    as [[[s1 f1] st1]|e]; [|done].
  cbn [mbind result_bind Py.bind]. apply IH.
Qed.

(** X17: [dispatch_on_finish] is stored by [__init__] and never read: with
    either value [process_update] starts the same threads and leaves the
    same module (the stored value apart), the tick emits the same unit and
    a synthesis computes the same frame plan. *)
Theorem dispatch_on_finish_has_no_effect (b : bool) (self : t) :
  (∀ um,
     process_update (set_dispatch_on_finish b self) um =
     match process_update self um with
     | Ok (self', started) => Ok (set_dispatch_on_finish b self', started)
     | Raise e => Raise e
     end) ∧
  tick (set_dispatch_on_finish b self) =
    match tick self with
    | Ok (iu, src, self') => Ok (iu, src, set_dispatch_on_finish b self')
    | Raise e => Raise e
    end ∧
  ∀ new_audio,
    frame_plan (set_dispatch_on_finish b self) new_audio
    = frame_plan self new_audio.
Proof.
  split; [|split; [|done]].
  - intros um. unfold process_update. destruct um as [|m um]; [done|].
    rewrite process_loop_dispatch_on_finish.
    by destruct (process_loop (self, false, []) (m :: um))
      as [[[s' f'] st']|e].
  - unfold tick.
    change (frame_duration (set_dispatch_on_finish b self))
      with (frame_duration self).
    destruct (sleep (frame_duration self)) as [[]|e]; [|done].
    cbn [mbind result_bind Py.bind].
    change (audio_buffer (set_dispatch_on_finish b self))
      with (audio_buffer self).
    destruct (audio_buffer self) as [|f rest]; [|done].
    change (frame_samples (set_dispatch_on_finish b self))
      with (frame_samples self).
    by destruct (frame_samples self).
Qed.

(** ** REVOKE *)

Lemma has_char_join_iff (c : ascii) (sep : string) (l : list string) :
  has_char c (join sep l) ↔
  (∃ x, x ∈ l ∧ has_char c x) ∨ ((2 ≤ length l)%nat ∧ has_char c sep).
Proof.
  induction l as [|x [|y l] IH].
  - cbn. split; [done|]. intros [(x & Hx & _)|[Hl _]].
    + by apply elem_of_nil in Hx.
    + cbn in Hl. lia.
  - cbn [join]. split.
    + intros H. left. exists x. split; [apply list_elem_of_here|done].
    + intros [(z & Hz & Hc)|[Hl _]]; [|cbn in Hl; lia].
      apply list_elem_of_singleton in Hz. by subst z.
  - rewrite join_cons by done. unfold has_char in *.
    rewrite !chars_append, !in_app_iff, IH. split.
    + intros [H|[H|[(z & Hz & Hc)|[_ H]]]].
      * left. exists x. split; [apply list_elem_of_here|done].
      * right. split; [cbn; lia|done].
      * left. exists z. split; [by apply list_elem_of_further|done].
      * right. split; [cbn; lia|done].
    + intros [(z & Hz & Hc)|[_ H]]; [|auto].
      apply elem_of_cons in Hz as [->|Hz]; [auto|].
      right. right. left. by exists z.
Qed.

Lemma has_char_join_sublist (c : ascii) (sep : string) (l' l : list string) :
  l' `sublist_of` l → has_char c (join sep l') → has_char c (join sep l).
Proof.
  intros Hsub. rewrite !has_char_join_iff.
  intros [(x & Hx & Hc)|[Hlen Hc]].
  - left. exists x. split; [by eapply elem_of_sublist|done].
  - right. split; [|done]. apply sublist_length in Hsub. lia.
Qed.

Lemma sublist_map_text (l' l : list TextIU.t) :
  l' `sublist_of` l → map TextIU.text l' `sublist_of` map TextIU.text l.
Proof. induction 1; cbn; by constructor. Qed.

(** X18: a REVOKE dispatches nothing by itself. When the pending text has
    no terminal marker (as it has after any [process_update]) and the host's
    [revoke] only removes units from the pending input, in particular when
    it finds nothing to remove, [process_update] of a REVOKE returns without
    raising, starts no thread, leaves the buffer and the latest input unit
    as they are, and the pending input is what [revoke] left. *)
Theorem revoke_does_not_dispatch (self : t) (iu : TextIU.t) :
  revoke (current_input self) iu `sublist_of` current_input self →
  (∀ c : ascii, c ∈ ["."; "!"; "?"]%char →
     ¬ has_char c (current_text self)) →
  ∃ self',
    process_update self [(iu, REVOKE)] = Ok (self', []) ∧
    current_input self' = revoke (current_input self) iu ∧
    audio_buffer self' = audio_buffer self ∧
    latest_input_iu self' = latest_input_iu self.
Proof.
  intros Hsub Hno.
  assert (Hf : finalizes false
                 (join " " (map TextIU.text (revoke (current_input self) iu)))
               = false).
  { apply finalizes_false_iff.
    repeat split; intros Hc;
      apply (has_char_join_sublist _ _ _ _ (sublist_map_text _ _ Hsub)) in Hc;
      revert Hc; apply Hno; rewrite !elem_of_cons; auto. }
  unfold process_update. cbn [process_loop].
  rewrite process_increment_eq.
  destruct (configure_keeps self iu) as (s1 & -> & Hi & Hb & _ & _ & _ & Hl).
  cbn [Py.bind apply_update fst snd].
  rewrite dispatch_if_final_false
    by (unfold current_text; cbn [current_input set_current_input];
        by rewrite Hi).
  cbn [fst snd mbind result_bind Py.bind]. eexists. split; [reflexivity|].
  cbn. by rewrite Hi, Hb, Hl.
Qed.

(** ** The mapping table and what the model is called with *)

Lemma LANGUAGE_MAPPING_entries (l m : string) (sp : option string) :
  LANGUAGE_MAPPING !! l = Some (m, sp) →
  (l = "all" ∧ m = MULTILINGUAL_MODEL ∧ sp = Some "Brenda Stern") ∨
  (l ≠ "all" ∧ m ≠ MULTILINGUAL_MODEL ∧ sp = None).
Proof.
  unfold LANGUAGE_MAPPING. intros H. apply elem_of_list_to_map_2 in H.
  rewrite !elem_of_cons, elem_of_nil in H.
  repeat (destruct H as [H|H]); try done;
    injection H as -> -> ->; [by left|right; by repeat split..].
Qed.

(** X19: only the "all" entry of the mapping names the multilingual model
    and a voice. So for a language with an entry of its own the model is
    called with the text alone, and for "all" or a language without entry
    it is the multilingual model, called with the voice "Brenda Stern" and
    the language as it was resolved, a tag the mapping does not know being
    passed on unchanged. *)
Theorem model_arguments_by_language
    (l text cache_path : string) (c : bool) (w : World) :
  let ms := dict_get LANGUAGE_MAPPING l
              (MULTILINGUAL_MODEL, Some "Brenda Stern") in
  let o := CoquiTTS.__init__ (Some ms.1) ms.2 (Some l) true
             "~/.cache/coqui_tts" in
  ((∃ m sp, LANGUAGE_MAPPING !! l = Some (m, sp)) ∧ l ≠ "all" →
     ms.1 ≠ MULTILINGUAL_MODEL ∧
     (CoquiTTS.render o text c cache_path w).1 =
       Ok (pcm16_file (tts_tts (tts_calls w) (Some ms.1) None text)
             (output_sample_rate (Some ms.1)))) ∧
  (LANGUAGE_MAPPING !! l = None ∨ l = "all" →
     ms.1 = MULTILINGUAL_MODEL ∧
     (CoquiTTS.render o text c cache_path w).1 =
       Ok (pcm16_file
             (tts_tts (tts_calls w) (Some MULTILINGUAL_MODEL)
                (Some (Some "Brenda Stern", l)) text)
             (output_sample_rate (Some MULTILINGUAL_MODEL)))).
Proof.
  cbn zeta. split.
  - intros [(m & sp & Hl) Hne].
    destruct (LANGUAGE_MAPPING_entries l m sp Hl)
      as [(? & _)|(_ & Hm & ->)]; [done|].
    unfold dict_get. rewrite Hl. cbn [default fst snd]. split; [done|].
    unfold CoquiTTS.render. cbn.
    rewrite bool_decide_eq_false_2 by congruence.
    by destruct c.
  - intros Hor.
    assert (Hd : dict_get LANGUAGE_MAPPING l
                   (MULTILINGUAL_MODEL, Some "Brenda Stern")
                 = (MULTILINGUAL_MODEL, Some "Brenda Stern")).
    { unfold dict_get. destruct Hor as [->| ->]; [done|].
      vm_compute. reflexivity. }
    rewrite Hd. cbn [fst snd]. split; [done|].
    unfold CoquiTTS.render. cbn.
    rewrite bool_decide_eq_true_2 by done.
    by destruct c.
Qed.

(** ** An utterance played back *)

Lemma appending_alone_state (n : nat) (na : bytes) (fb : Z)
    (idxs : list Z) :
  ∀ s, Sys.synths s !! n = Some (Sys.Appending na fb idxs) →
  Sys.run s (repeat (Sys.Synth n) (length idxs)) =
    Sys.mk
      (set_audio_buffer
         (audio_buffer (Sys.module s)
          ++ map (fun i => mkFrame n i (chunk_at na fb i)) idxs)
         (Sys.module s))
      (Sys.world s) (<[n := Sys.Appending na fb []]> (Sys.synths s))
      (Sys.scheds s) (Sys.output s)
      (Sys.appended s ++ map (fun i => mkFrame n i (chunk_at na fb i)) idxs).
Proof.
  induction idxs as [|i rest IH]; intros s Hl.
  - cbn. rewrite !app_nil_r, set_audio_buffer_id, (list_insert_id _ _ _ Hl).
    by destruct s.
  - cbn [length repeat Sys.run fold_left Sys.step].
    unfold Sys.step_synth. rewrite Hl.
    assert (Hlt : (n < length (Sys.synths s))%nat) by by eapply lookup_lt_Some.
    match goal with
    | |- fold_left Sys.step _ ?s1 = _ => pose proof (IH s1) as Hrun
    end.
    unfold Sys.run in Hrun. rewrite Hrun
      by (cbn [Sys.synths]; by apply list_lookup_insert_eq).
    cbn. by rewrite list_insert_insert_eq, <- !app_assoc.
Qed.

Lemma synthesize_alone_state (s : Sys.t) (n : nat) (na : bytes)
    (frames : list Frame) :
  Sys.synths s !! n = Some (Sys.Rendered na) →
  synthesized_frames (Sys.module s) n na = Ok frames →
  ∃ fb,
    Sys.run s (repeat (Sys.Synth n) (S (length frames))) =
      Sys.mk
        (set_audio_buffer (audio_buffer (Sys.module s) ++ frames)
           (Sys.module s))
        (Sys.world s) (<[n := Sys.Appending na fb []]> (Sys.synths s))
        (Sys.scheds s) (Sys.output s) (Sys.appended s ++ frames).
Proof.
  intros Hl. unfold synthesized_frames.
  destruct (frame_plan (Sys.module s) na) as [[fb idxs]|e] eqn:Hplan; [|done].
  cbn [mbind result_bind Py.bind]. intros [= <-]. exists fb.
  rewrite length_map.
  cbn [repeat Sys.run fold_left Sys.step]. unfold Sys.step_synth.
  rewrite Hl, Hplan.
  assert (Hlt : (n < length (Sys.synths s))%nat) by by eapply lookup_lt_Some.
  match goal with
  | |- fold_left Sys.step _ ?s1 = _ =>
      pose proof (appending_alone_state n na fb idxs s1) as Hrun
  end.
  unfold Sys.run in Hrun. rewrite Hrun
    by (cbn [Sys.synths]; by apply list_lookup_insert_eq).
  cbn. by rewrite list_insert_insert_eq.
Qed.

(** X20: the undisturbed path. A synthesis thread that has its waveform and
    runs to the end of its loop, followed by a scheduler thread ticking once
    for each frame, with the buffer empty at the start: the units emitted
    are exactly the frames of the waveform, in order, and the buffer is
    empty again. *)
Theorem utterance_played_back_in_order
    (s : Sys.t) (n k : nat) (new_audio : bytes) (frames : list Frame) :
  Sys.synths s !! n = Some (Sys.Rendered new_audio) →
  synthesized_frames (Sys.module s) n new_audio = Ok frames →
  Sys.scheds s !! k = Some Sys.AtTest →
  _tts_thread_active (Sys.module s) = true →
  sleep (frame_duration (Sys.module s)) = Ok tt →
  audio_buffer (Sys.module s) = [] →
  Sys.output
    (Sys.run s (repeat (Sys.Synth n) (S (length frames)) ++
                flat_map (fun _ => [Sys.Sched k; Sys.Sched k]) frames))
    = Sys.output s ++ map (Sys.emitted_frame (Sys.module s)) frames ∧
  audio_buffer
    (Sys.module
       (Sys.run s (repeat (Sys.Synth n) (S (length frames)) ++
                   flat_map (fun _ => [Sys.Sched k; Sys.Sched k]) frames)))
    = [] ∧
  Sys.appended
    (Sys.run s (repeat (Sys.Synth n) (S (length frames)) ++
                flat_map (fun _ => [Sys.Sched k; Sys.Sched k]) frames))
    = Sys.appended s ++ frames.
Proof.
  intros Hl Hframes Hk Hflag Hsleep Hbuf.
  destruct (synthesize_alone_state s n new_audio frames Hl Hframes)
    as [fb Hrun].
  unfold Sys.run in *. rewrite fold_left_app, Hrun.
  match goal with
  | |- context [fold_left Sys.step _ ?s1] =>
      pose proof (drain_run k frames s1 Hk Hflag Hsleep) as Hdrain
  end.
  unfold Sys.run in Hdrain. rewrite Hdrain by (cbn; by rewrite Hbuf).
  by cbn.
Qed.

(** ** The buffer as a queue *)


(** ** No synthesis thread meets a [CoquiTTS] without attributes *)

Lemma process_update_tts (self self' : t) (um : UpdateMessage)
    (started : list string) :
  process_update self um = Ok (self', started) → um ≠ [] →
  ∃ m sp l,
    tts self'
    = Some (CoquiTTS.__init__ (Some m) sp (Some l) true "~/.cache/coqui_tts").
Proof.
  intros H Hne. destruct um as [|x um _] using rev_ind; [done|].
  destruct x as [iu ut]. unfold process_update in H.
  destruct (um ++ [(iu, ut)]) as [|m0 um0] eqn:Hum; [by destruct um|].
  rewrite <- Hum in H.
  destruct (process_loop _ _) as [[[s' f'] st']|e] eqn:Hloop; [|done].
  injection H as <- <-. apply process_loop_last in Hloop as (_ & Ht & _).
  by eexists _, _, _.
Qed.

Lemma tts_ready_step (s : Sys.t) (e : Sys.event) :
  Sys.tts_ready s → Sys.tts_ready (Sys.step s e).
Proof.
  intros Hr. destruct e as [um|n|k| |]; cbn [Sys.step].
  - unfold Sys.step_update.
    destruct (process_update _ _) as [[m' started]|err] eqn:Hu; [|done].
    destruct um as [|x um].
    + cbn in Hu. injection Hu as <- <-. unfold Sys.tts_ready in *.
      cbn. by rewrite app_nil_r.
    + right. by eapply process_update_tts.
  - destruct Hr as [Hnil|Htts].
    + left. unfold Sys.step_synth. by rewrite Hnil.
    + right. destruct (step_synth_spec s n) as (Y & pcs & w' & -> & _).
      exact Htts.
  - unfold Sys.step_sched.
    destruct (Sys.scheds s !! k) as [[| | |err]|]; try done.
    + by destruct (_tts_thread_active _).
    + destruct (tick _) as [[[iu src] m']|err] eqn:Ht; [|done].
      apply tick_spec in Ht as [(_ & _ & ->)|(f & rest & _ & _ & _ & ->)];
        exact Hr.
  - exact Hr.
  - exact Hr.
Qed.

Lemma tts_ready_run (es : list Sys.event) :
  ∀ s, Sys.tts_ready s → Sys.tts_ready (Sys.run s es).
Proof.
  induction es as [|e es IH]; intros s Hr; [done|].
  cbn [Sys.run fold_left]. apply IH. by apply tts_ready_step.
Qed.

(** X22: the module never hands a synthesis thread a [CoquiTTS] without
    attributes. Threads exist only after a [process_update] that has built
    a [CoquiTTS] with a model name and a language, and every later one is
    built the same way; so in every state the program reaches from its
    start, a thread that calls [synthesize] gets a waveform back and moves
    on to cutting it: it does not die of an AttributeError. *)
Theorem synthesis_thread_gets_a_waveform
    (m : t) (w : World) (es : list Sys.event) (n : nat) (text : string) :
  Sys.synths (Sys.run (Sys.init m w) es) !! n = Some (Sys.Start text) →
  ∃ new_audio,
    Sys.synths (Sys.step (Sys.run (Sys.init m w) es) (Sys.Synth n)) !! n
    = Some (Sys.Rendered new_audio).
Proof.
  intros Hl. set (s := Sys.run (Sys.init m w) es) in *.
  assert (Hr : Sys.tts_ready s) by (apply tts_ready_run; by left).
  destruct Hr as [Hnil|(md & sp & l & Htts)]; [by rewrite Hnil in Hl|].
  cbn [Sys.step]. unfold Sys.step_synth. rewrite Hl, Htts. cbn [getattr].
  destruct (synthesize_returns md sp l "~/.cache/coqui_tts" text true
              (Sys.world s)) as (data & w1 & ->).
  exists data. cbn [Sys.synths]. apply list_lookup_insert_eq.
  by eapply lookup_lt_Some.
Qed.

End Extras.

(** * Concrete instances of the further properties *)

Lemma add_dispatches_on_marker_or_committed_witness :
  let self := MultilingualTTSModule.__init__ None true 0.2%float in
  let iu := TextIU.mk 1 "Dr. Who" None false in
  has_char "." "Dr. Who" ∧
  ∃ self',
    @MultilingualTTSModule.process_update demo_external self [(iu, ADD)]
      = Ok (self', ["Dr. Who"]) ∧
    MultilingualTTSModule.current_input self' = [].
Proof.
  cbn zeta.
  assert (H : has_char "." "Dr. Who")
    by (apply contains_char; vm_compute; reflexivity).
  split; [exact H|].
  destruct (@add_dispatches_on_marker_or_committed demo_external
              (MultilingualTTSModule.__init__ None true 0.2%float)
              (TextIU.mk 1 "Dr. Who" None false))
    as (self' & Hu & Hi & _).
  { right. exists "."%char. split; [apply list_elem_of_here|exact H]. }
  exists self'. split; [exact Hu|exact Hi].
Defined.

Lemma process_update_bookkeeping_witness :
  let self := MultilingualTTSModule.__init__ None true 0.2%float in
  let um := [(TextIU.mk 1 "Hi." None false, ADD);
             (TextIU.mk 2 "and" None false, ADD);
             (TextIU.mk 2 "and" None false, REVOKE)] in
  ∃ self',
    @MultilingualTTSModule.process_update demo_external self um
      = Ok (self', ["Hi."]) ∧
    MultilingualTTSModule._latest_text self' = "Hi." ∧
    MultilingualTTSModule.latest_input_iu self'
      = Some (TextIU.mk 2 "and" None false).
Proof.
  cbn zeta.
  assert (H : ∃ self',
            @MultilingualTTSModule.process_update demo_external
              (MultilingualTTSModule.__init__ None true 0.2%float)
              [(TextIU.mk 1 "Hi." None false, ADD);
               (TextIU.mk 2 "and" None false, ADD);
               (TextIU.mk 2 "and" None false, REVOKE)]
            = Ok (self', ["Hi."]))
    by (eexists; vm_compute; reflexivity).
  destruct H as [self' H]. exists self'. split; [exact H|].
  exact (@process_update_bookkeeping demo_external _ _ _ _ H).
Defined.

Lemma fixed_language_overrides_tags_witness :
  let self := MultilingualTTSModule.__init__ (Some "de") true 0.2%float in
  MultilingualTTSModule.wished_language self = Some "de" ∧
  MultilingualTTSModule.LANGUAGE_MAPPING !! "de"
    = Some ("tts_models/de/thorsten/vits", None) ∧
  MultilingualTTSModule.resolve_language self
    (TextIU.mk 1 "Bonjour" (Some "fr") false) = "de".
Proof.
  cbn zeta.
  assert (H1 : MultilingualTTSModule.wished_language
                 (MultilingualTTSModule.__init__ (Some "de") true 0.2%float)
               = Some "de") by (vm_compute; reflexivity).
  assert (H2 : MultilingualTTSModule.LANGUAGE_MAPPING !! "de"
               = Some ("tts_models/de/thorsten/vits", None))
    by (vm_compute; reflexivity).
  split; [exact H1|]. split; [exact H2|].
  destruct (@fixed_language_overrides_tags demo_external _ _ _ _ H1 H2)
    as (_ & Hres & _).
  apply Hres.
Defined.

Lemma cache_key_is_text_then_model_name_witness :
  "ab" +:+ "c" = "a" +:+ "bc" ∧
  ∃ data w1,
    @CoquiTTS.synthesize demo_external
      (@CoquiTTS.__init__ demo_external (Some "c") None (Some "en") true
         "/cache") "ab" empty_world = (Ok data, w1) ∧
    @CoquiTTS.synthesize demo_external
      (@CoquiTTS.__init__ demo_external (Some "bc") (Some "Brenda Stern")
         (Some "fr") true "/cache") "a" w1 = (Ok data, w1).
Proof.
  split; [reflexivity|].
  apply (@cache_key_is_text_then_model_name demo_external "c" "bc" None
           (Some "Brenda Stern") "en" "fr" "/cache" "ab" "a" empty_world).
  reflexivity.
Defined.

Lemma synthesize_cache_miss_witness :
  let o := @CoquiTTS.__init__ demo_external
             (Some "tts_models/en/ljspeech/vits") None (Some "en") true
             "/cache" in
  let p := "/cache/Hi.tts_models/en/ljspeech/vits.wav" in
  @CoquiTTS.get_cache_path demo_external o "Hi." = Ok p ∧
  fs empty_world !! p = None ∧
  ∃ data w',
    @CoquiTTS.synthesize demo_external o "Hi." empty_world = (Ok data, w') ∧
    tts_calls w' = 1%nat ∧
    fs w' !! p = Some data.
Proof.
  cbn zeta.
  assert (H1 : @CoquiTTS.get_cache_path demo_external
                 (@CoquiTTS.__init__ demo_external
                    (Some "tts_models/en/ljspeech/vits") None (Some "en")
                    true "/cache") "Hi."
               = Ok "/cache/Hi.tts_models/en/ljspeech/vits.wav")
    by (vm_compute; reflexivity).
  assert (H2 : fs empty_world !! "/cache/Hi.tts_models/en/ljspeech/vits.wav"
               = None) by (vm_compute; reflexivity).
  split; [exact H1|]. split; [exact H2|].
  destruct (@synthesize_cache_miss demo_external _ _ _ _ _ _ _ H1 H2)
    as (data & w' & Hs & Hc & Hp & _).
  exists data, w'. split; [exact Hs|]. split; [exact Hc|exact Hp].
Defined.

Lemma frames_concatenate_to_waveform_witness :
  let self := MultilingualTTSModule.__init__ None true 0.2%float in
  MultilingualTTSModule.frame_samples self = Ok 4410 ∧
  0 < 4410 * MultilingualTTSModule.samplewidth self ∧
  ∃ frames pad,
    MultilingualTTSModule.synthesized_frames self 0 (repeat x01 (Z.to_nat 10000))
      = Ok frames ∧
    concat (map pcm frames) = repeat x01 (Z.to_nat 10000) ++ zeros pad.
Proof.
  cbn zeta.
  assert (H1 : MultilingualTTSModule.frame_samples
                 (MultilingualTTSModule.__init__ None true 0.2%float)
               = Ok 4410) by (vm_compute; reflexivity).
  assert (H2 : 0 < 4410 * MultilingualTTSModule.samplewidth
                          (MultilingualTTSModule.__init__ None true 0.2%float))
    by reflexivity.
  split; [exact H1|]. split; [exact H2|].
  destruct (frames_concatenate_to_waveform _ 0%nat (repeat x01 (Z.to_nat 10000)) _ H1 H2)
    as (frames & pad & Hf & Hc & _).
  exists frames, pad. split; [exact Hf|exact Hc].
Defined.

Lemma zero_frame_size_kills_synthesis_witness :
  let s0 := Sys.init (MultilingualTTSModule.__init__ None true 0.00001%float)
              empty_world in
  let s := @Sys.run demo_external s0
             [Sys.Update [(TextIU.mk 1 "Hi." None false, ADD)]; Sys.Synth 0] in
  MultilingualTTSModule.frame_samples (Sys.module s) = Ok 0 ∧
  (∃ new_audio, Sys.synths s !! 0%nat = Some (Sys.Rendered new_audio)) ∧
  Sys.synths (@Sys.step demo_external s (Sys.Synth 0))
    = [Sys.Died ValueError].
Proof.
  cbn zeta.
  set (s := @Sys.run demo_external _ _).
  assert (H1 : MultilingualTTSModule.frame_samples (Sys.module s) = Ok 0)
    by (vm_compute; reflexivity).
  assert (H2 : 0 * MultilingualTTSModule.samplewidth (Sys.module s) = 0)
    by reflexivity.
  assert (H3 : Sys.synths s !! 0%nat
               = Some (Sys.Rendered
                         (repeat x52 44 ++
                          flat_map (fun _ => [xff; x3f])
                            (repeat 0.5%float (Z.to_nat 3000)))))
    by (vm_compute; reflexivity).
  split; [exact H1|]. split; [by eexists|].
  destruct (@zero_frame_size_kills_synthesis demo_external s 0%nat _ 0
              H1 H2 H3) as [Hstep _].
  rewrite Hstep. vm_compute. reflexivity.
Defined.

Lemma scheduler_drains_in_order_witness :
  let m := MultilingualTTSModule.set_audio_buffer
             [mkFrame 0 0 [x01; x02]; mkFrame 0 2 [x03; x04]]
             (MultilingualTTSModule.prepare_run
                (MultilingualTTSModule.__init__ None true 0.2%float)) in
  let s := Sys.mk m empty_world [] [Sys.AtTest] [] [] in
  sleep (MultilingualTTSModule.frame_duration m) = Ok tt ∧
  map (fun e => AudioIU.raw_audio (Sys.unit e))
    (Sys.output
       (@Sys.run demo_external s
          [Sys.Sched 0; Sys.Sched 0; Sys.Sched 0; Sys.Sched 0]))
  = [[x01; x02]; [x03; x04]].
Proof.
  cbn zeta.
  assert (Hs : sleep 0.2%float = Ok tt) by (vm_compute; reflexivity).
  split; [exact Hs|].
  pose proof (@scheduler_drains_in_order demo_external
             (Sys.mk
                (MultilingualTTSModule.set_audio_buffer
                   [mkFrame 0 0 [x01; x02]; mkFrame 0 2 [x03; x04]]
                   (MultilingualTTSModule.prepare_run
                      (MultilingualTTSModule.__init__ None true 0.2%float)))
                empty_world [] [Sys.AtTest] [] [])
             0%nat [mkFrame 0 0 [x01; x02]; mkFrame 0 2 [x03; x04]]
             eq_refl eq_refl Hs eq_refl) as Hrun.
  cbn [flat_map app] in Hrun. rewrite Hrun. reflexivity.
Defined.

Lemma synthesis_uses_the_latest_tts_witness :
  let s0 := Sys.init (MultilingualTTSModule.__init__ None true 0.2%float)
              empty_world in
  let s := @Sys.run demo_external s0
             [Sys.Update [(TextIU.mk 1 "Hallo." (Some "de") false, ADD)]] in
  let fr := TextIU.mk 2 "Salut" (Some "fr") false in
  Sys.synths s !! 0%nat = Some (Sys.Start "Hallo.") ∧
  ∃ m' started,
    @MultilingualTTSModule.process_update demo_external (Sys.module s)
      ([] ++ [(fr, ADD)]) = Ok (m', started) ∧
    MultilingualTTSModule.resolve_language (Sys.module s) fr = "fr".
Proof.
  cbn zeta.
  set (s := @Sys.run demo_external _ _).
  assert (H : Sys.synths s !! 0%nat = Some (Sys.Start "Hallo."))
    by (vm_compute; reflexivity).
  split; [exact H|].
  destruct (@synthesis_uses_the_latest_tts demo_external s 0%nat "Hallo." []
              (TextIU.mk 2 "Salut" (Some "fr") false) ADD H)
    as (m' & started & Hu & _).
  exists m', started. split; [exact Hu|]. vm_compute. reflexivity.
Defined.

Lemma restart_leaves_two_schedulers_witness :
  let s0 := Sys.init (MultilingualTTSModule.__init__ None true 0.2%float)
              empty_world in
  let s := @Sys.run demo_external s0 [Sys.PrepareRun] in
  Sys.scheds s !! 0%nat = Some Sys.AtTest ∧
  Sys.scheds
    (@Sys.run demo_external s
       [Sys.Shutdown; Sys.PrepareRun; Sys.Sched 0;
        Sys.Sched (length (Sys.scheds s))])
  = <[0%nat := Sys.InBody]> (Sys.scheds s) ++ [Sys.InBody].
Proof.
  cbn zeta. split; [reflexivity|].
  apply (@restart_leaves_two_schedulers demo_external
           (@Sys.run demo_external
              (Sys.init (MultilingualTTSModule.__init__ None true 0.2%float)
                 empty_world) [Sys.PrepareRun]) 0%nat).
  reflexivity.
Defined.

Lemma revoke_does_not_dispatch_witness :
  let hi := TextIU.mk 1 "Hi" None false in
  let self := MultilingualTTSModule.set_current_input [hi]
                (MultilingualTTSModule.__init__ None true 0.2%float) in
  @revoke demo_external (MultilingualTTSModule.current_input self) hi = [] ∧
  ∃ self',
    @MultilingualTTSModule.process_update demo_external self [(hi, REVOKE)]
      = Ok (self', []) ∧
    MultilingualTTSModule.current_input self' = [].
Proof.
  cbn zeta.
  assert (Hr : @revoke demo_external
                 (MultilingualTTSModule.current_input
                    (MultilingualTTSModule.set_current_input
                       [TextIU.mk 1 "Hi" None false]
                       (MultilingualTTSModule.__init__ None true 0.2%float)))
                 (TextIU.mk 1 "Hi" None false) = [])
    by (vm_compute; reflexivity).
  split; [exact Hr|].
  destruct (@revoke_does_not_dispatch demo_external
              (MultilingualTTSModule.set_current_input
                 [TextIU.mk 1 "Hi" None false]
                 (MultilingualTTSModule.__init__ None true 0.2%float))
              (TextIU.mk 1 "Hi" None false))
    as (self' & Hu & Hi & _).
  - rewrite Hr. apply sublist_nil_l.
  - intros c Hc. rewrite <- contains_char.
    rewrite !elem_of_cons, elem_of_nil in Hc.
    destruct Hc as [->|[->|[->|[]]]]; vm_compute; discriminate.
  - exists self'. split; [exact Hu|]. by rewrite Hi, Hr.
Defined.

Lemma utterance_played_back_in_order_witness :
  let s0 := Sys.init (MultilingualTTSModule.__init__ None true 0.2%float)
              empty_world in
  let s := @Sys.run demo_external s0
             [Sys.PrepareRun;
              Sys.Update [(TextIU.mk 1 "Hi." None false, ADD)];
              Sys.Synth 0] in
  Sys.scheds s !! 0%nat = Some Sys.AtTest ∧
  ∃ new_audio frames,
    Sys.synths s !! 0%nat = Some (Sys.Rendered new_audio) ∧
    MultilingualTTSModule.synthesized_frames (Sys.module s) 0 new_audio
      = Ok frames ∧
    Sys.output
      (@Sys.run demo_external s
         (repeat (Sys.Synth 0) (S (length frames)) ++
          flat_map (fun _ => [Sys.Sched 0; Sys.Sched 0]) frames))
    = Sys.output s ++ map (Sys.emitted_frame (Sys.module s)) frames.
Proof.
  cbn zeta.
  set (s := @Sys.run demo_external _ _).
  assert (Hk : Sys.scheds s !! 0%nat = Some Sys.AtTest)
    by (vm_compute; reflexivity).
  assert (Hl : Sys.synths s !! 0%nat
               = Some (Sys.Rendered
                         (repeat x52 44 ++
                          flat_map (fun _ => [xff; x3f])
                            (repeat 0.5%float (Z.to_nat 3000)))))
    by (vm_compute; reflexivity).
  assert (Hf : ∃ frames,
            MultilingualTTSModule.synthesized_frames (Sys.module s) 0
              (repeat x52 44 ++
               flat_map (fun _ => [xff; x3f])
                 (repeat 0.5%float (Z.to_nat 3000)))
            = Ok frames)
    by (eexists; vm_compute; reflexivity).
  destruct Hf as [frames Hf].
  split; [exact Hk|]. eexists _, frames.
  split; [exact Hl|]. split; [exact Hf|].
  apply (@utterance_played_back_in_order demo_external s 0%nat 0%nat _ frames
           Hl Hf Hk);
    vm_compute; reflexivity.
Defined.

Lemma synthesis_thread_gets_a_waveform_witness :
  let m := MultilingualTTSModule.__init__ None true 0.2%float in
  let es := [Sys.Update [(TextIU.mk 1 "Hi." None false, ADD)]] in
  Sys.synths (@Sys.run demo_external (Sys.init m empty_world) es) !! 0%nat
    = Some (Sys.Start "Hi.") ∧
  ∃ new_audio,
    Sys.synths
      (@Sys.step demo_external
         (@Sys.run demo_external (Sys.init m empty_world) es) (Sys.Synth 0))
      !! 0%nat = Some (Sys.Rendered new_audio).
Proof.
  cbn zeta.
  assert (H : Sys.synths
                (@Sys.run demo_external
                   (Sys.init
                      (MultilingualTTSModule.__init__ None true 0.2%float)
                      empty_world)
                   [Sys.Update [(TextIU.mk 1 "Hi." None false, ADD)]])
                !! 0%nat = Some (Sys.Start "Hi."))
    by (vm_compute; reflexivity).
  split; [exact H|].
  exact (@synthesis_thread_gets_a_waveform demo_external _ _ _ _ _ H).
Defined.
